(** * Civic issue reporting backend: a shallow embedding of [backend/server.py]

    The request handlers of the FastAPI application are embedded as pure
    functions over an explicit document store.  Everything a handler reads
    from outside (the uuid generator, the ObjectId generator of the driver,
    the clock, the outcome of the LLM call) is gathered in an environment
    record that is passed to the handler. *)

From Stdlib Require Import List String Ascii ZArith Bool Lia PrimFloat Permutation Sorted.
Import ListNotations.

Set Warnings "-inexact-float".
Local Open Scope Z_scope.

(** ** Python values *)

(** [datetime] values are kept as an integer time stamp, at the resolution
    of the store (milliseconds).  The finer digits that a model still
    carries in a payload built before the insert are not modelled: the time
    stamp of a payload stands for the clock reading at that resolution. *)
Definition datetime := Z.

(** Truthiness of an [Optional[str]]: [None] and the empty string are falsy. *)
Definition str_truthy (o : option string) : bool :=
  match o with
  | Some s => negb (String.eqb s EmptyString)
  | None => false
  end.

(** Truthiness of an [Optional[float]]: [None], [0.0] and [-0.0] are falsy,
    every other float (NaN included) is truthy. *)
Definition float_truthy (o : option float) : bool :=
  match o with
  | Some x => negb (PrimFloat.eqb x 0%float)
  | None => false
  end.

(** Exceptions.  [except Exception] catches the first kind only; the second
    kind stands for the [BaseException]s that are not [Exception]s
    (cancellation, interpreter exit). *)
Inductive PyExc : Type :=
| PyException (msg : string)
| PyBaseException (msg : string).

Definition is_Exception (e : PyExc) : bool :=
  match e with
  | PyException _ => true
  | PyBaseException _ => false
  end.

(** What a handler does: return a payload, raise [HTTPException], or let
    another exception escape. *)
Inductive Outcome (A : Type) : Type :=
| Return (a : A)
| HTTPException (status_code : Z) (detail : string)
| Uncaught (e : PyExc).

Arguments Return {A} a.
Arguments HTTPException {A} status_code detail.
Arguments Uncaught {A} e.

Definition returns {A : Type} (o : Outcome A) : bool :=
  match o with
  | Return _ => true
  | _ => false
  end.

(** ** Pydantic models *)

Record User : Type := mkUser {
  user_id_ : string;
  user_name : string;
  user_email : string;
  user_password_hash : string;
  user_phone : option string;
  user_role : string;
  user_created_at : datetime
}.

Record UserCreate : Type := mkUserCreate {
  uc_name : string;
  uc_email : string;
  uc_password : string;
  uc_phone : option string
}.

Record UserLogin : Type := mkUserLogin {
  ul_email : string;
  ul_password : string
}.

Record Category : Type := mkCategory {
  category_id_ : string;
  category_name : string;
  category_description : string;
  category_icon : option string
}.

Record Issue : Type := mkIssue {
  issue_id_ : string;
  issue_user_id : string;
  issue_category_id : string;
  issue_title : string;
  issue_description : string;
  issue_image_base64 : option string;
  issue_voice_base64 : option string;
  issue_voice_transcript : option string;
  issue_location_lat : float;
  issue_location_long : float;
  issue_address : option string;
  issue_status : string;
  issue_expected_completion : option datetime;
  issue_actual_completion : option datetime;
  issue_vote_count : Z;
  issue_created_at : datetime;
  issue_updated_at : datetime
}.

Record IssueCreate : Type := mkIssueCreate {
  ic_title : string;
  ic_description : string;
  ic_category_id : string;
  ic_image_base64 : option string;
  ic_voice_base64 : option string;
  ic_location_lat : float;
  ic_location_long : float;
  ic_address : option string
}.

Record Vote : Type := mkVote {
  vote_id_ : string;
  vote_issue_id : string;
  vote_user_id : string;
  vote_created_at : datetime
}.

Record Comment : Type := mkComment {
  comment_id_ : string;
  comment_issue_id : string;
  comment_user_id : string;
  comment_message : string;
  comment_created_at : datetime
}.

Record CommentCreate : Type := mkCommentCreate {
  cc_issue_id : string;
  cc_message : string
}.

(** ** The document store *)

(** A stored document is the [dict()] of a model together with the [_id]
    the driver adds on insertion (kept in its [str] form). *)
Record Doc (A : Type) : Type := mkDoc {
  _id : string;
  body : A
}.

Arguments mkDoc {A} _ _.
Arguments _id {A} d.
Arguments body {A} d.

(** A collection keeps its documents in insertion order. *)
Definition Collection (A : Type) : Type := list (Doc A).

Record Store : Type := mkStore {
  users : Collection User;
  categories : Collection Category;
  issues : Collection Issue;
  votes : Collection Vote;
  comments : Collection Comment
}.

Definition empty_store : Store := mkStore [] [] [] [] [].

Module Mongo.

Section Ops.
Context {A : Type}.

Definition find_one (q : Doc A -> bool) (c : Collection A) : option (Doc A) :=
  List.find q c.

Definition find (q : Doc A -> bool) (c : Collection A) : list (Doc A) :=
  List.filter q c.

(** The [_id]s come from the driver and are taken to be new: an [_id] that
    is already stored is not refused here. *)
Definition insert_one (oid : string) (d : A) (c : Collection A) : Collection A :=
  c ++ [mkDoc oid d].

Fixpoint delete_one (q : Doc A -> bool) (c : Collection A) : Collection A :=
  match c with
  | [] => []
  | d :: c' => if q d then c' else d :: delete_one q c'
  end.

Definition delete_many (q : Doc A -> bool) (c : Collection A) : Collection A :=
  List.filter (fun d => negb (q d)) c.

Fixpoint update_one (q : Doc A -> bool) (f : A -> A) (c : Collection A) : Collection A :=
  match c with
  | [] => []
  | d :: c' =>
      if q d then mkDoc (_id d) (f (body d)) :: c'
      else d :: update_one q f c'
  end.

(** [before a b] says that [a] may stand before [b] in the sorted output. *)
Fixpoint insert_sorted (before : Doc A -> Doc A -> bool) (d : Doc A) (c : list (Doc A)) : list (Doc A) :=
  match c with
  | [] => [d]
  | x :: c' => if before d x then d :: x :: c' else x :: insert_sorted before d c'
  end.

(** The sort keeps documents with equal keys in collection order. *)
Definition sort (before : Doc A -> Doc A -> bool) (c : list (Doc A)) : list (Doc A) :=
  List.fold_right (insert_sorted before) [] c.

Definition to_list (length : Z) (c : list (Doc A)) : list (Doc A) :=
  List.firstn (Z.to_nat length) c.

End Ops.

(** Comparison of two doubles in a query: NaN equals NaN and is otherwise
    incomparable. *)
Definition gte (x bound : float) : bool :=
  if PrimFloat.is_nan x || PrimFloat.is_nan bound
  then PrimFloat.is_nan x && PrimFloat.is_nan bound
  else PrimFloat.leb bound x.

Definition lte (x bound : float) : bool :=
  if PrimFloat.is_nan x || PrimFloat.is_nan bound
  then PrimFloat.is_nan x && PrimFloat.is_nan bound
  else PrimFloat.leb x bound.

End Mongo.

(** ** What a handler reads from outside *)

Inductive LlmOutcome : Type :=
| LlmResponds (response : string)
| LlmRaises (e : PyExc).

(** [uuid4 env k] is the [k]-th identifier a model's [default_factory] draws
    while the request is handled, [new_object_id env k] the [k]-th [_id] the
    driver generates, [utcnow env k] the [k]-th clock reading, and
    [send_message env] what the body of the [try] block of
    [transcribe_audio] does when it is run. *)
Record Env : Type := mkEnv {
  uuid4 : nat -> string;
  new_object_id : nat -> string;
  utcnow : nat -> datetime;
  send_message : LlmOutcome
}.

(** ** Response payloads *)

Record Response (A : Type) : Type := mkResponse {
  success : bool;
  payload : A;
  message : string
}.

Arguments mkResponse {A} _ _ _.
Arguments success {A} r.
Arguments payload {A} r.
Arguments message {A} r.

(** An issue dictionary after the enrichment loop: a key that was not set is
    [None]; [category_icon] may be present with the value [None]. *)
Record IssueView : Type := mkIssueView {
  iv_issue : Issue;
  iv_user_name : option string;
  iv_category_name : option string;
  iv_category_icon : option (option string)
}.

Record CommentView : Type := mkCommentView {
  cv_comment : Comment;
  cv_user_name : option string
}.

(** ** Field updates *)

Definition set_user_id (u : User) (id : string) : User :=
  mkUser id (user_name u) (user_email u) (user_password_hash u) (user_phone u)
    (user_role u) (user_created_at u).

Definition set_category_id (c : Category) (id : string) : Category :=
  mkCategory id (category_name c) (category_description c) (category_icon c).

Definition set_issue_id (i : Issue) (id : string) : Issue :=
  mkIssue id (issue_user_id i) (issue_category_id i) (issue_title i)
    (issue_description i) (issue_image_base64 i) (issue_voice_base64 i)
    (issue_voice_transcript i) (issue_location_lat i) (issue_location_long i)
    (issue_address i) (issue_status i) (issue_expected_completion i)
    (issue_actual_completion i) (issue_vote_count i) (issue_created_at i)
    (issue_updated_at i).

Definition set_comment_id (c : Comment) (id : string) : Comment :=
  mkComment id (comment_issue_id c) (comment_user_id c) (comment_message c)
    (comment_created_at c).

(** The update document [{"$inc": {"vote_count": n}}]. *)
Definition inc_vote_count (n : Z) (i : Issue) : Issue :=
  mkIssue (issue_id_ i) (issue_user_id i) (issue_category_id i) (issue_title i)
    (issue_description i) (issue_image_base64 i) (issue_voice_base64 i)
    (issue_voice_transcript i) (issue_location_lat i) (issue_location_long i)
    (issue_address i) (issue_status i) (issue_expected_completion i)
    (issue_actual_completion i) (issue_vote_count i + n) (issue_created_at i)
    (issue_updated_at i).

Definition set_users (db : Store) (c : Collection User) : Store :=
  mkStore c (categories db) (issues db) (votes db) (comments db).

Definition set_categories (db : Store) (c : Collection Category) : Store :=
  mkStore (users db) c (issues db) (votes db) (comments db).

Definition set_issues (db : Store) (c : Collection Issue) : Store :=
  mkStore (users db) (categories db) c (votes db) (comments db).

Definition set_votes (db : Store) (c : Collection Vote) : Store :=
  mkStore (users db) (categories db) (issues db) c (comments db).

Definition set_comments (db : Store) (c : Collection Comment) : Store :=
  mkStore (users db) (categories db) (issues db) (votes db) c.

(** ** Helper functions *)

(** [object_id_to_str]: the [id] key is overwritten with [str(doc["_id"])]
    and [_id] is dropped.  Every stored document has an [_id]. *)
Definition object_id_to_str {A : Type} (set_id : A -> string -> A) (doc : Doc A) : A :=
  set_id (body doc) (_id doc).

Definition transcript_ok : string :=
  "Voice note recorded (transcription available in full version)".

Definition transcript_failed : string :=
  "Voice note recorded (transcription failed)".

Definition transcribe_audio (env : Env) (audio_base64 : string) : Outcome string :=
  match send_message env with
  | LlmResponds _ => Return transcript_ok
  | LlmRaises e =>
      if is_Exception e then Return transcript_failed else Uncaught e
  end.

(** ** Queries *)

(** The query [{field: k}] on a string field. *)
Definition by_key {A : Type} (key : A -> string) (k : string) (d : Doc A) : bool :=
  String.eqb (key (body d)) k.

Definition by_id_user (id : string) : Doc User -> bool := by_key user_id_ id.

Definition by_id_category (id : string) : Doc Category -> bool := by_key category_id_ id.

Definition by_id_issue (id : string) : Doc Issue -> bool := by_key issue_id_ id.

Definition by_id_vote (id : string) : Doc Vote -> bool := by_key vote_id_ id.

Definition by_email (email : string) : Doc User -> bool := by_key user_email email.

Definition by_email_and_hash (email password_hash : string) (d : Doc User) : bool :=
  by_key user_email email d && by_key user_password_hash password_hash d.

Definition by_issue_and_user (issue_id user_id : string) (d : Doc Vote) : bool :=
  by_key vote_issue_id issue_id d && by_key vote_user_id user_id d.

Definition by_comment_issue (issue_id : string) : Doc Comment -> bool :=
  by_key comment_issue_id issue_id.

(** ** Authentication and users *)

Section Users.

(** [hashlib.sha256(password.encode()).hexdigest()]. *)
Variable sha256_hexdigest : string -> string.

Definition register_user (env : Env) (user_data : UserCreate) (db : Store)
  : Outcome (Response User) * Store :=
  match Mongo.find_one (by_email (uc_email user_data)) (users db) with
  | Some _ => (HTTPException 400 "Email already registered", db)
  | None =>
      let password_hash := sha256_hexdigest (uc_password user_data) in
      let user := mkUser (uuid4 env 0) (uc_name user_data) (uc_email user_data)
                    password_hash (uc_phone user_data) "citizen" (utcnow env 0) in
      let inserted_id := new_object_id env 0 in
      (Return (mkResponse true (set_user_id user inserted_id)
                 "User registered successfully"),
       set_users db (Mongo.insert_one inserted_id user (users db)))
  end.

Definition login_user (login_data : UserLogin) (db : Store)
  : Outcome (Response User) :=
  let password_hash := sha256_hexdigest (ul_password login_data) in
  match Mongo.find_one (by_email_and_hash (ul_email login_data) password_hash) (users db) with
  | None => HTTPException 401 "Invalid credentials"
  | Some user => Return (mkResponse true (object_id_to_str set_user_id user) "Login successful")
  end.

End Users.

(** ** Categories *)

Definition get_categories (db : Store) : Outcome (list Category) :=
  Return (List.map (object_id_to_str set_category_id)
            (Mongo.to_list 1000 (Mongo.find (fun _ => true) (categories db)))).

(** Name, description and icon of each default category. *)
Definition default_categories : list (string * string * string) :=
  [ ("Roads & Transportation", "Potholes, traffic issues, road repairs", "car");
    ("Water & Sanitation", "Water leaks, drainage, sewage", "water-drop");
    ("Electricity", "Power outages, street lights, electrical issues", "flash");
    ("Waste Management", "Garbage collection, littering, recycling", "trash");
    ("Public Safety", "Security, crime, emergency services", "shield");
    ("Parks & Recreation", "Parks maintenance, recreational facilities", "leaf");
    ("Other", "Other civic issues", "help-circle") ]%string.

(** The insertion loop of [init_categories]; [k] counts the categories
    already inserted. *)
Fixpoint insert_categories (env : Env) (k : nat) (l : list (string * string * string))
  (c : Collection Category) : Collection Category :=
  match l with
  | [] => c
  | (name, description, icon) :: l' =>
      let category := mkCategory (uuid4 env k) name description (Some icon) in
      insert_categories env (S k) l'
        (Mongo.insert_one (new_object_id env k) category c)
  end.

Definition init_categories (env : Env) (db : Store) : Outcome (Response unit) * Store :=
  let cleared := Mongo.delete_many (fun _ => true) (categories db) in
  (Return (mkResponse true tt "Categories initialized"),
   set_categories db (insert_categories env 0 default_categories cleared)).

(** ** Issues *)

Definition create_issue (env : Env) (issue_data : IssueCreate) (user_id : string)
  (db : Store) : Outcome (Response Issue) * Store :=
  let transcription : Outcome (option string) :=
    match ic_voice_base64 issue_data with
    | Some audio =>
        if str_truthy (Some audio) then
          match transcribe_audio env audio with
          | Return t => Return (Some t)
          | HTTPException c d => HTTPException c d
          | Uncaught e => Uncaught e
          end
        else Return None
    | None => Return None
    end in
  match transcription with
  | Return voice_transcript =>
      let issue :=
        mkIssue (uuid4 env 0) user_id (ic_category_id issue_data)
          (ic_title issue_data) (ic_description issue_data)
          (ic_image_base64 issue_data) (ic_voice_base64 issue_data)
          voice_transcript (ic_location_lat issue_data)
          (ic_location_long issue_data) (ic_address issue_data)
          "pending" None None 0 (utcnow env 0) (utcnow env 1) in
      let inserted_id := new_object_id env 0 in
      (Return (mkResponse true (set_issue_id issue inserted_id)
                 "Issue reported successfully"),
       set_issues db (Mongo.insert_one inserted_id issue (issues db)))
  | HTTPException c d => (HTTPException c d, db)
  | Uncaught e => (Uncaught e, db)
  end.

(** The entries of the [match_conditions] dictionary. *)
Inductive MatchCondition : Type :=
| LocationLat (gte lte : float)
| LocationLong (gte lte : float)
| CategoryId (category_id : string).

Definition condition_holds (d : Doc Issue) (m : MatchCondition) : bool :=
  match m with
  | LocationLat lo hi =>
      Mongo.gte (issue_location_lat (body d)) lo
      && Mongo.lte (issue_location_lat (body d)) hi
  | LocationLong lo hi =>
      Mongo.gte (issue_location_long (body d)) lo
      && Mongo.lte (issue_location_long (body d)) hi
  | CategoryId c => by_key issue_category_id c d
  end.

(** The stages [get_issues] puts in its pipeline; the sort stage is always
    [{"vote_count": -1, "created_at": -1}]. *)
Inductive Stage : Type :=
| StageMatch (match_conditions : list MatchCondition)
| StageSort
| StageLimit (limit : Z).

(** Descending order on [(vote_count, created_at)]. *)
Definition issue_before (a b : Doc Issue) : bool :=
  (issue_vote_count (body b) <? issue_vote_count (body a))
  || ((issue_vote_count (body b) =? issue_vote_count (body a))
      && (issue_created_at (body b) <=? issue_created_at (body a))).

Definition int64_max : Z := 9223372036854775807.

(** The store rejects a [$limit] that is not a positive 64-bit integer
    (and [to_list] a negative length, before the command is sent); the
    call then fails and the exception escapes the handler.  One exception
    stands for these failures: their class and text are not told apart. *)
Definition limit_accepted (limit : Z) : bool :=
  (1 <=? limit) && (limit <=? int64_max).

Fixpoint aggregate (pipeline : list Stage) (c : list (Doc Issue))
  : Outcome (list (Doc Issue)) :=
  match pipeline with
  | [] => Return c
  | StageMatch conds :: p =>
      aggregate p (List.filter (fun d => List.forallb (condition_holds d) conds) c)
  | StageSort :: p => aggregate p (Mongo.sort issue_before c)
  | StageLimit limit :: p =>
      if limit_accepted limit
      then aggregate p (List.firstn (Z.to_nat limit) c)
      else Uncaught (PyException "the limit must be positive")
  end.

(** The body of the enrichment loop, written twice in the source
    ([get_issues] and [get_issue]).  A stored category always has the [icon]
    key, so [category.get("icon", "help-circle")] is the stored value. *)
Definition issue_with_context (db : Store) (doc : Doc Issue) : IssueView :=
  let issue := object_id_to_str set_issue_id doc in
  let user := Mongo.find_one (by_id_user (issue_user_id issue)) (users db) in
  let category := Mongo.find_one (by_id_category (issue_category_id issue)) (categories db) in
  mkIssueView issue
    (match user with Some u => Some (user_name (body u)) | None => None end)
    (match category with Some c => Some (category_name (body c)) | None => None end)
    (match category with Some c => Some (category_icon (body c)) | None => None end).

(** The [match_conditions] dictionary [get_issues] builds from its
    parameters. *)
Definition match_conditions (lat lng : option float) (category_id : option string)
  : list MatchCondition :=
  let location_conditions :=
    match lat, lng with
    | Some lat', Some lng' =>
        if float_truthy lat && float_truthy lng
        then [LocationLat (lat' - 0.05) (lat' + 0.05);
              LocationLong (lng' - 0.05) (lng' + 0.05)]%float
        else []
    | _, _ => []
    end in
  let category_conditions :=
    match category_id with
    | Some c => if str_truthy category_id then [CategoryId c] else []
    | None => []
    end in
  location_conditions ++ category_conditions.

Definition get_issues (lat lng radius : option float) (category_id : option string)
  (limit : Z) (db : Store) : Outcome (list IssueView) :=
  let conds := match_conditions lat lng category_id in
  let pipeline :=
    (match conds with
     | [] => []
     | _ => [StageMatch conds]
     end) ++ [StageSort; StageLimit limit] in
  match aggregate pipeline (issues db) with
  | Return found =>
      Return (List.map (issue_with_context db) (Mongo.to_list limit found))
  | HTTPException c d => HTTPException c d
  | Uncaught e => Uncaught e
  end.

Definition get_issue (issue_id : string) (db : Store) : Outcome IssueView :=
  match Mongo.find_one (by_id_issue issue_id) (issues db) with
  | None => HTTPException 404 "Issue not found"
  | Some issue => Return (issue_with_context db issue)
  end.

(** ** Voting *)

Definition vote_issue (env : Env) (issue_id user_id : string) (db : Store)
  : Outcome (Response bool) * Store :=
  match Mongo.find_one (by_issue_and_user issue_id user_id) (votes db) with
  | Some existing_vote =>
      let votes' := Mongo.delete_one (by_id_vote (vote_id_ (body existing_vote))) (votes db) in
      let issues' := Mongo.update_one (by_id_issue issue_id) (inc_vote_count (-1)) (issues db) in
      (Return (mkResponse true false "Vote removed"),
       mkStore (users db) (categories db) issues' votes' (comments db))
  | None =>
      let vote := mkVote (uuid4 env 0) issue_id user_id (utcnow env 0) in
      let votes' := Mongo.insert_one (new_object_id env 0) vote (votes db) in
      let issues' := Mongo.update_one (by_id_issue issue_id) (inc_vote_count 1) (issues db) in
      (Return (mkResponse true true "Vote added"),
       mkStore (users db) (categories db) issues' votes' (comments db))
  end.

(** ** Comments *)

Definition add_comment (env : Env) (issue_id : string) (comment_data : CommentCreate)
  (user_id : string) (db : Store) : Outcome (Response Comment) * Store :=
  let comment := mkComment (uuid4 env 0) issue_id user_id (cc_message comment_data)
                   (utcnow env 0) in
  let inserted_id := new_object_id env 0 in
  (Return (mkResponse true (set_comment_id comment inserted_id) "Comment added"),
   set_comments db (Mongo.insert_one inserted_id comment (comments db))).

(** Descending order on [created_at]. *)
Definition comment_before (a b : Doc Comment) : bool :=
  comment_created_at (body b) <=? comment_created_at (body a).

Definition comment_with_author (db : Store) (doc : Doc Comment) : CommentView :=
  let comment := object_id_to_str set_comment_id doc in
  let user := Mongo.find_one (by_id_user (comment_user_id comment)) (users db) in
  mkCommentView comment
    (match user with Some u => Some (user_name (body u)) | None => None end).

Definition get_comments (issue_id : string) (db : Store) : Outcome (list CommentView) :=
  let found :=
    Mongo.to_list 1000
      (Mongo.sort comment_before (Mongo.find (by_comment_issue issue_id) (comments db))) in
  Return (List.map (comment_with_author db) found).

(** ** Health check *)

Definition root : Outcome (string * string) :=
  Return ("CIRS API is running", "healthy")%string.

(** ** Identifier formats *)

(** [str(uuid.uuid4())] is 8-4-4-4-12 lower-case hexadecimal digits;
    [str(ObjectId())] is 24 lower-case hexadecimal digits. *)
Definition is_hex (c : ascii) : bool :=
  let n := nat_of_ascii c in
  ((48 <=? n)%nat && (n <=? 57)%nat) || ((97 <=? n)%nat && (n <=? 102)%nat).

Fixpoint take_hex (n : nat) (s : string) : option string :=
  match n with
  | O => Some s
  | S n' =>
      match s with
      | String c s' => if is_hex c then take_hex n' s' else None
      | EmptyString => None
      end
  end.

Definition take_hyphen (s : string) : option string :=
  match s with
  | String c s' => if Ascii.eqb c "-" then Some s' else None
  | EmptyString => None
  end.

Definition and_then {A B : Type} (o : option A) (f : A -> option B) : option B :=
  match o with
  | Some a => f a
  | None => None
  end.

Definition is_uuid_str (s : string) : bool :=
  match
    and_then (take_hex 8 s) (fun s =>
    and_then (take_hyphen s) (fun s =>
    and_then (take_hex 4 s) (fun s =>
    and_then (take_hyphen s) (fun s =>
    and_then (take_hex 4 s) (fun s =>
    and_then (take_hyphen s) (fun s =>
    and_then (take_hex 4 s) (fun s =>
    and_then (take_hyphen s) (fun s =>
    take_hex 12 s))))))))
  with
  | Some EmptyString => true
  | _ => false
  end.

Definition is_object_id_str (s : string) : bool :=
  match take_hex 24 s with
  | Some EmptyString => true
  | _ => false
  end.

(** ** Sequential executions *)

Inductive Request : Type :=
| RegisterUser (user_data : UserCreate)
| LoginUser (login_data : UserLogin)
| GetCategories
| InitCategories
| CreateIssue (issue_data : IssueCreate) (user_id : string)
| GetIssues (lat lng radius : option float) (category_id : option string) (limit : Z)
| GetIssue (issue_id : string)
| VoteIssue (issue_id user_id : string)
| AddComment (issue_id : string) (comment_data : CommentCreate) (user_id : string)
| GetComments (issue_id : string)
| Root.

(** The store a request leaves behind.  Only five handlers write. *)
Definition step (sha256_hexdigest : string -> string) (env : Env) (req : Request)
  (db : Store) : Store :=
  match req with
  | RegisterUser user_data => snd (register_user sha256_hexdigest env user_data db)
  | InitCategories => snd (init_categories env db)
  | CreateIssue issue_data user_id => snd (create_issue env issue_data user_id db)
  | VoteIssue issue_id user_id => snd (vote_issue env issue_id user_id db)
  | AddComment issue_id comment_data user_id =>
      snd (add_comment env issue_id comment_data user_id db)
  | LoginUser _ | GetCategories | GetIssues _ _ _ _ _ | GetIssue _
  | GetComments _ | Root => db
  end.

(** The stores after each request of a trace. *)
Fixpoint run (sha256_hexdigest : string -> string) (tr : list (Env * Request))
  (db : Store) : list Store :=
  match tr with
  | [] => []
  | (env, req) :: tr' =>
      let db' := step sha256_hexdigest env req db in
      db' :: run sha256_hexdigest tr' db'
  end.

Definition ids_of {A : Type} (f : A -> string) (c : Collection A) : list string :=
  List.map (fun d => f (body d)) c.

(** Every identifier the store holds, as a key or as a reference. *)
Definition known_ids (db : Store) : list string :=
  ids_of issue_id_ (issues db) ++ ids_of vote_issue_id (votes db)
  ++ ids_of vote_id_ (votes db)
  ++ ids_of user_id_ (users db) ++ ids_of category_id_ (categories db)
  ++ ids_of comment_id_ (comments db)
  ++ ids_of issue_user_id (issues db) ++ ids_of issue_category_id (issues db)
  ++ ids_of vote_user_id (votes db)
  ++ ids_of comment_issue_id (comments db) ++ ids_of comment_user_id (comments db).

(** How many models with a generated [id] a request may build. *)
Definition draws (req : Request) : nat :=
  match req with
  | RegisterUser _ | CreateIssue _ _ | VoteIssue _ _ | AddComment _ _ _ => 1
  | InitCategories => 7
  | _ => 0
  end.

Definition mem (s : string) (l : list string) : bool :=
  List.existsb (String.eqb s) l.

Fixpoint distinct (l : list string) : bool :=
  match l with
  | [] => true
  | s :: l' => negb (mem s l') && distinct l'
  end.

(** The assumption on the generators: the identifiers drawn for a request
    have the format of their kind, and the uuids are pairwise distinct and
    differ from every identifier the store holds. *)
Definition admissible (env : Env) (req : Request) (db : Store) : bool :=
  let ks := List.seq 0 (draws req) in
  let drawn := List.map (uuid4 env) ks in
  distinct drawn
  && List.forallb (fun u => negb (mem u (known_ids db))) drawn
  && List.forallb is_uuid_str drawn
  && List.forallb (fun k => is_object_id_str (new_object_id env k)) ks.

Fixpoint admissible_run (sha256_hexdigest : string -> string)
  (tr : list (Env * Request)) (db : Store) : bool :=
  match tr with
  | [] => true
  | (env, req) :: tr' =>
      admissible env req db
      && admissible_run sha256_hexdigest tr' (step sha256_hexdigest env req db)
  end.

(** ** Invariants of the store *)

Definition votes_for (issue_id : string) (c : Collection Vote) : nat :=
  List.length (Mongo.find (by_key vote_issue_id issue_id) c).

(** The counter of every issue equals the number of votes that carry the
    issue's stored [id]. *)
Definition vote_count_consistent (db : Store) : Prop :=
  forall d, In d (issues db) ->
    issue_vote_count (body d) = Z.of_nat (votes_for (issue_id_ (body d)) (votes db)).

Definition vote_count_consistentb (db : Store) : bool :=
  List.forallb
    (fun d => issue_vote_count (body d)
              =? Z.of_nat (votes_for (issue_id_ (body d)) (votes db)))
    (issues db).

Record well_formed (db : Store) : Prop := mk_well_formed {
  wf_issue_ids : NoDup (ids_of issue_id_ (issues db));
  wf_vote_ids : NoDup (ids_of vote_id_ (votes db));
  wf_issue_uuids : Forall (fun s => is_uuid_str s = true) (ids_of issue_id_ (issues db));
  wf_counts : vote_count_consistent db
}.

(** The counter stored for [issue_id], when an issue carries that [id]. *)
Definition vote_count_of (issue_id : string) (db : Store) : option Z :=
  option_map (fun d => issue_vote_count (body d))
    (Mongo.find_one (by_id_issue issue_id) (issues db)).

Definition voted_flag (o : Outcome (Response bool)) : option bool :=
  match o with
  | Return r => Some (payload r)
  | _ => None
  end.

(** ** Sample data *)

Module Sample.

Local Open Scope string_scope.

Definition sha (s : string) : string := String.append "sha256:" s.

Definition uuid_a : string := "11111111-1111-4111-8111-111111111111".
Definition uuid_b : string := "22222222-2222-4222-8222-222222222222".
Definition uuid_c : string := "33333333-3333-4333-8333-333333333333".
Definition uuid_d : string := "44444444-4444-4444-8444-444444444444".
Definition uuid_e : string := "55555555-5555-4555-8555-555555555555".
Definition oid_a : string := "65f0a1b2c3d4e5f601234567".
Definition oid_b : string := "65f0a1b2c3d4e5f601234568".
Definition oid_c : string := "65f0a1b2c3d4e5f601234569".
Definition oid_d : string := "65f0a1b2c3d4e5f60123456a".
Definition oid_e : string := "65f0a1b2c3d4e5f60123456b".

Definition env_of (uuid oid : string) (now : datetime) (llm : LlmOutcome) : Env :=
  mkEnv (fun _ => uuid) (fun _ => oid) (fun _ => now) llm.

Definition env_a : Env := env_of uuid_a oid_a 100 (LlmResponds "ok").
Definition env_b : Env := env_of uuid_b oid_b 200 (LlmResponds "ok").
Definition env_c : Env := env_of uuid_c oid_c 300 (LlmResponds "ok").
Definition env_d : Env := env_of uuid_d oid_d 400 (LlmResponds "ok").
Definition env_e : Env := env_of uuid_e oid_e 500 (LlmResponds "ok").
Definition env_llm_down : Env :=
  env_of uuid_a oid_a 100 (LlmRaises (PyException "connection refused")).

Definition pothole : IssueCreate :=
  mkIssueCreate "Pothole on Main Street" "Large pothole near the intersection"
    "roads" None None 40.7128%float (-74.0060)%float (Some "123 Main Street").

Definition voice_report : IssueCreate :=
  mkIssueCreate "Street light out" "Recorded on site" "electricity" None
    (Some "UklGRg==") 12.9716%float 77.5946%float None.

Definition alice : UserCreate := mkUserCreate "Alice" "alice@example.org" "secret" None.

(** One issue, then two votes and a withdrawn vote. *)
Definition trace : list (Env * Request) :=
  [ (env_a, CreateIssue pothole "u1");
    (env_b, VoteIssue uuid_a "u1");
    (env_c, VoteIssue uuid_a "u2");
    (env_d, VoteIssue uuid_a "u1");
    (env_e, VoteIssue "invalid-id" "u1") ].

Definition db_one_issue : Store := snd (create_issue env_a pothole "u1" empty_store).

(** A comment filed under an id that no issue carries. *)
Definition db_ghost_comment : Store :=
  snd (add_comment env_a "invalid-id" (mkCommentCreate "invalid-id" "hello") "u1" empty_store).

End Sample.

(** ** Orders and ranges used in the statements *)

(** [a] may stand before [b] in a list sorted by [vote_count] descending,
    ties broken by [created_at] descending. *)
Definition issue_desc (a b : Issue) : Prop :=
  issue_vote_count b < issue_vote_count a
  \/ (issue_vote_count b = issue_vote_count a
      /\ issue_created_at b <= issue_created_at a).

(** The store's reading of [center - 0.05 <= x <= center + 0.05]. *)
Definition within_box (x center : float) : bool :=
  Mongo.gte x (center - 0.05)%float && Mongo.lte x (center + 0.05)%float.

(** ** Observations used in the statements *)

Definition category_names (db : Store) : list string :=
  List.map (fun d => category_name (body d)) (categories db).

Definition category_rows (db : Store) : list (string * string * option string) :=
  List.map (fun d => (category_name (body d), category_description (body d),
                      category_icon (body d))) (categories db).

(** A stored user has this email. *)
Definition email_taken (email : string) (db : Store) : Prop :=
  exists d, In d (users db) /\ user_email (body d) = email.

(** No stored user carries the [user_id] of the document, resp. no stored
    category its [category_id]. *)
Definition no_user (user_id : string) (db : Store) : Prop :=
  forall u, In u (users db) -> user_id_ (body u) <> user_id.

Definition no_category (category_id : string) (db : Store) : Prop :=
  forall c, In c (categories db) -> category_id_ (body c) <> category_id.

(** ** Further observations *)

(** The stored emails, in insertion order. *)
Definition emails (db : Store) : list string := ids_of user_email (users db).

(** The [(issue_id, user_id)] pair of every stored vote. *)
Definition vote_pairs (db : Store) : list (string * string) :=
  List.map (fun d => (vote_issue_id (body d), vote_user_id (body d))) (votes db).

(** An issue document with its counter blanked: everything a vote cannot
    change. *)
Definition without_vote_count (d : Doc Issue) : Doc Issue :=
  mkDoc (_id d) (inc_vote_count (- issue_vote_count (body d)) (body d)).

(** The rows of the default categories as they are stored. *)
Definition default_rows : list (string * string * option string) :=
  List.map (fun '(n, d, i) => (n, d, Some i)) default_categories.

Definition object_ids {A : Type} (c : Collection A) : list string :=
  List.map _id c.

(** The formats of the identifiers in a store: every [id] field is the text
    of a uuid and every [_id] the text of an ObjectId. *)
Record shaped (db : Store) : Prop := mk_shaped {
  sh_user_ids : Forall (fun s => is_uuid_str s = true) (ids_of user_id_ (users db));
  sh_category_ids :
    Forall (fun s => is_uuid_str s = true) (ids_of category_id_ (categories db));
  sh_issue_ids : Forall (fun s => is_uuid_str s = true) (ids_of issue_id_ (issues db));
  sh_vote_ids : Forall (fun s => is_uuid_str s = true) (ids_of vote_id_ (votes db));
  sh_comment_ids :
    Forall (fun s => is_uuid_str s = true) (ids_of comment_id_ (comments db));
  sh_user_oids : Forall (fun s => is_object_id_str s = true) (object_ids (users db));
  sh_category_oids :
    Forall (fun s => is_object_id_str s = true) (object_ids (categories db));
  sh_issue_oids : Forall (fun s => is_object_id_str s = true) (object_ids (issues db));
  sh_vote_oids : Forall (fun s => is_object_id_str s = true) (object_ids (votes db));
  sh_comment_oids :
    Forall (fun s => is_object_id_str s = true) (object_ids (comments db))
}.

(** Descending order on the [created_at] of comments. *)
Definition comment_desc (a b : Comment) : Prop :=
  comment_created_at b <= comment_created_at a.

Module Scenario.

Local Open Scope string_scope.

(** The seven draws of [init_categories]. *)
Definition uuid_k (k : nat) : string :=
  String.append
    (String.append "0000000" (String (ascii_of_nat (48 + k)) ""))
    "-0000-4000-8000-000000000000".

Definition oid_k (k : nat) : string :=
  String.append "65f0a1b2c3d4e5f60123450" (String (ascii_of_nat (48 + k)) "").

Definition env_seed : Env :=
  mkEnv uuid_k oid_k (fun _ => 50) (LlmResponds "ok").

Definition db_alice : Store :=
  snd (register_user Sample.sha Sample.env_a Sample.alice empty_store).

Definition hello : CommentCreate := mkCommentCreate "ignored" "hello".

Definition db_commented : Store :=
  snd (add_comment Sample.env_b Sample.uuid_a hello "u1" Sample.db_one_issue).

(** Registration, seeding, a report by the registered user, a vote and a
    comment, each addressed with the identifiers the API returned. *)
Definition api_trace : list (Env * Request) :=
  [ (Sample.env_a, RegisterUser Sample.alice);
    (env_seed, InitCategories);
    (Sample.env_b, CreateIssue Sample.pothole Sample.oid_a);
    (Sample.env_c, VoteIssue Sample.oid_b Sample.oid_a);
    (Sample.env_d, AddComment Sample.oid_b hello Sample.oid_a);
    (Sample.env_e, VoteIssue Sample.uuid_b Sample.oid_a) ].

Definition db_api : Store :=
  List.last (run Sample.sha api_trace empty_store) empty_store.

End Scenario.

(** The pair a listing of issues is sorted by. *)
Definition sort_key (v : IssueView) : Z * datetime :=
  (issue_vote_count (iv_issue v), issue_created_at (iv_issue v)).

(** ** Listings up to the order of ties *)

(** [found] is what sorting [all] by [R] and keeping the first [k] documents
    gives, whatever the order the store chooses among ties: it is sorted,
    has [min k (length all)] documents, and with the documents left out it
    makes up [all], no document left out being ranked before a kept one. *)
Definition top_of {A : Type} (R : A -> A -> Prop) (k : nat) (all found : list A) : Prop :=
  StronglySorted R found
  /\ List.length found = Nat.min k (List.length all)
  /\ exists rest,
       Permutation (found ++ rest) all
       /\ forall x y, In x found -> In y rest -> R x y.


Definition comment_order (a b : Doc Comment) : Prop := comment_desc (body a) (body b).


(** Records with their time stamps blanked: what a payload and the stored
    document are compared on. *)
Definition user_without_time (u : User) : User :=
  mkUser (user_id_ u) (user_name u) (user_email u) (user_password_hash u)
    (user_phone u) (user_role u) 0.

Definition comment_without_time (c : Comment) : Comment :=
  mkComment (comment_id_ c) (comment_issue_id c) (comment_user_id c)
    (comment_message c) 0.

Definition issue_without_times (i : Issue) : Issue :=
  mkIssue (issue_id_ i) (issue_user_id i) (issue_category_id i) (issue_title i)
    (issue_description i) (issue_image_base64 i) (issue_voice_base64 i)
    (issue_voice_transcript i) (issue_location_lat i) (issue_location_long i)
    (issue_address i) (issue_status i) (issue_expected_completion i)
    (issue_actual_completion i) (issue_vote_count i) 0 0.

(** * Properties *)

(** ** Strings and identifier formats *)

Lemma take_hex_length n s s' :
  take_hex n s = Some s' -> String.length s = (n + String.length s')%nat.
Proof.
  revert s; induction n as [|n IH]; intros s H; simpl in *.
  - now inversion H.
  - destruct s as [|c s0]; [discriminate|].
    destruct (is_hex c); [|discriminate].
    simpl. now rewrite (IH _ H).
Qed.

Lemma take_hyphen_length s s' :
  take_hyphen s = Some s' -> String.length s = S (String.length s').
Proof.
  destruct s as [|c s0]; simpl; [discriminate|].
  destruct (Ascii.eqb c "-"); [|discriminate].
  now intros [= ->].
Qed.

Lemma is_uuid_str_length s : is_uuid_str s = true -> String.length s = 36%nat.
Proof.
  unfold is_uuid_str, and_then.
  repeat match goal with
  | |- context [match take_hex ?n ?x with _ => _ end] =>
      let E := fresh "E" in
      destruct (take_hex n x) eqn:E; [apply take_hex_length in E|discriminate]
  | |- context [match take_hyphen ?x with _ => _ end] =>
      let E := fresh "E" in
      destruct (take_hyphen x) eqn:E; [apply take_hyphen_length in E|discriminate]
  end.
  match goal with |- context [match ?x with EmptyString => _ | _ => _ end] =>
    destruct x; [|discriminate] end.
  simpl in *. intros _. lia.
Qed.

Lemma is_object_id_str_length s : is_object_id_str s = true -> String.length s = 24%nat.
Proof.
  unfold is_object_id_str.
  destruct (take_hex 24 s) as [r|] eqn:E; [|discriminate].
  apply take_hex_length in E.
  destruct r; [|discriminate]. simpl in E. intros _. lia.
Qed.

(** A string cannot be both the text of a uuid and of an ObjectId. *)
Lemma uuid_is_not_object_id s :
  is_uuid_str s = true -> is_object_id_str s = true -> False.
Proof.
  intros H1 H2.
  apply is_uuid_str_length in H1. apply is_object_id_str_length in H2. lia.
Qed.

Lemma mem_In s l : mem s l = true <-> In s l.
Proof.
  unfold mem. rewrite existsb_exists. split.
  - intros [x [Hx E]]. apply String.eqb_eq in E. now subst.
  - intros H. exists s. split; [assumption|apply String.eqb_refl].
Qed.

Lemma mem_false s l : mem s l = false <-> ~ In s l.
Proof.
  rewrite <- mem_In. destruct (mem s l); split; intros; congruence.
Qed.

(** ** Collections *)

Section CollectionFacts.
Context {A : Type}.
Variable key : A -> string.


Lemma find_one_in (q : Doc A -> bool) (c : Collection A) d :
  Mongo.find_one q c = Some d -> In d c /\ q d = true.
Proof. apply find_some. Qed.

Lemma find_one_none (q : Doc A -> bool) (c : Collection A) :
  Mongo.find_one q c = None -> forall d, In d c -> q d = false.
Proof. intros H d Hd. exact (find_none q c H d Hd). Qed.

Lemma find_one_insert_one (q : Doc A -> bool) (c : Collection A) oid a :
  Mongo.find_one q (Mongo.insert_one oid a c) =
  match Mongo.find_one q c with
  | Some d => Some d
  | None => if q (mkDoc oid a) then Some (mkDoc oid a) else None
  end.
Proof.
  unfold Mongo.find_one, Mongo.insert_one.
  induction c as [|x c IH]; simpl; [reflexivity|].
  destruct (q x); [reflexivity|exact IH].
Qed.

(** With unique keys, deleting by the key of a stored document removes
    exactly that document. *)
Lemma delete_one_unique (c : Collection A) d :
  NoDup (ids_of key c) -> In d c ->
  exists l1 l2, c = l1 ++ d :: l2
                /\ Mongo.delete_one (by_key key (key (body d))) c = l1 ++ l2.
Proof.
  induction c as [|x c IH]; intros Hnd Hin; [contradiction|].
  simpl in Hnd. inversion Hnd as [|? ? Hx Hnd']; subst.
  destruct Hin as [->|Hin].
  - exists [], c. simpl. unfold by_key. now rewrite String.eqb_refl.
  - simpl. destruct (by_key key (key (body d)) x) eqn:E.
    + exfalso. apply Hx. unfold by_key in E. apply String.eqb_eq in E.
      rewrite E. unfold ids_of. apply in_map_iff. now exists d.
    + destruct (IH Hnd' Hin) as [l1 [l2 [-> Hd]]].
      exists (x :: l1), l2. simpl. now rewrite Hd.
Qed.

(** With unique keys, updating the first match updates every match. *)
Lemma update_one_unique (f : A -> A) (k : string) (c : Collection A) :
  NoDup (ids_of key c) ->
  Mongo.update_one (by_key key k) f c =
  List.map (fun d => if by_key key k d then mkDoc (_id d) (f (body d)) else d) c.
Proof.
  induction c as [|x c IH]; intros Hnd; [reflexivity|].
  simpl in Hnd. inversion Hnd as [|? ? Hx Hnd']; subst.
  simpl. destruct (by_key key k x) eqn:E.
  - f_equal. transitivity (List.map (fun d : Doc A => d) c);
      [symmetry; apply map_id|]. apply map_ext_in.
    intros d Hd. destruct (by_key key k d) eqn:E'; [|reflexivity].
    exfalso. apply Hx. unfold by_key in E, E'.
    apply String.eqb_eq in E, E'. rewrite E, <- E'.
    unfold ids_of. apply in_map_iff. now exists d.
  - f_equal. exact (IH Hnd').
Qed.

Lemma update_one_keys (q : Doc A -> bool) (f : A -> A) (c : Collection A) :
  (forall a, key (f a) = key a) ->
  ids_of key (Mongo.update_one q f c) = ids_of key c.
Proof.
  intros Hf. induction c as [|x c IH]; [reflexivity|].
  simpl. destruct (q x); simpl; [now rewrite Hf|now rewrite IH].
Qed.

Lemma update_one_find_one (f : A -> A) (k : string) (c : Collection A) :
  (forall a, key (f a) = key a) ->
  Mongo.find_one (by_key key k) (Mongo.update_one (by_key key k) f c) =
  option_map (fun d => mkDoc (_id d) (f (body d))) (Mongo.find_one (by_key key k) c).
Proof.
  intros Hf. induction c as [|x c IH]; [reflexivity|].
  simpl. destruct (by_key key k x) eqn:E; simpl.
  - unfold by_key in *. simpl. now rewrite Hf, E.
  - now rewrite E.
Qed.

Lemma update_one_find_other (f : A -> A) (k k' : string) (c : Collection A) :
  (forall a, key (f a) = key a) -> k' <> k ->
  Mongo.find_one (by_key key k') (Mongo.update_one (by_key key k) f c) =
  Mongo.find_one (by_key key k') c.
Proof.
  intros Hf Hk. induction c as [|x c IH]; [reflexivity|].
  simpl. destruct (by_key key k x) eqn:E; simpl.
  - unfold by_key in *. simpl. rewrite Hf.
    apply String.eqb_eq in E. rewrite E.
    destruct (String.eqb_spec k k') as [->|_]; [congruence|reflexivity].
  - now rewrite IH.
Qed.

(** Updating twice with inverse updates gives the collection back. *)
Lemma update_one_undo (f g : A -> A) (k : string) (c : Collection A) :
  (forall a, key (f a) = key a) -> (forall a, g (f a) = a) ->
  Mongo.update_one (by_key key k) g (Mongo.update_one (by_key key k) f c) = c.
Proof.
  intros Hf Hg. induction c as [|x c IH]; [reflexivity|].
  simpl. destruct (by_key key k x) eqn:E; simpl.
  - unfold by_key in *. simpl. rewrite Hf, E. simpl. rewrite Hg. now destruct x.
  - now rewrite E, IH.
Qed.

Lemma ids_of_insert_one oid a (c : Collection A) :
  ids_of key (Mongo.insert_one oid a c) = ids_of key c ++ [key a].
Proof. unfold ids_of, Mongo.insert_one. now rewrite map_app. Qed.

(** Deleting by the key of a freshly inserted document undoes the insert. *)
Lemma delete_one_insert_one oid a (c : Collection A) :
  ~ In (key a) (ids_of key c) ->
  Mongo.delete_one (by_key key (key a)) (Mongo.insert_one oid a c) = c.
Proof.
  unfold Mongo.insert_one. induction c as [|x c IH]; intros Hn; simpl.
  - unfold by_key. simpl. now rewrite String.eqb_refl.
  - destruct (by_key key (key a) x) eqn:E.
    + exfalso. apply Hn. left. unfold by_key in E. now apply String.eqb_eq in E.
    + f_equal. apply IH. intros H. apply Hn. now right.
Qed.

End CollectionFacts.

Lemma NoDup_snoc (l : list string) s : NoDup l -> ~ In s l -> NoDup (l ++ [s]).
Proof.
  intros Hl Hs. apply NoDup_app; [assumption|constructor; [intros []|constructor]|].
  intros x Hx [<-|[]]. contradiction.
Qed.

(** ** Counting votes *)

Lemma votes_for_app id (c1 c2 : Collection Vote) :
  votes_for id (c1 ++ c2) = (votes_for id c1 + votes_for id c2)%nat.
Proof. unfold votes_for, Mongo.find. now rewrite filter_app, length_app. Qed.

Lemma votes_for_cons id d (c : Collection Vote) :
  votes_for id (d :: c) =
  ((if by_key vote_issue_id id d then 1 else 0) + votes_for id c)%nat.
Proof. unfold votes_for, Mongo.find. simpl. now destruct (by_key vote_issue_id id d). Qed.

Lemma votes_for_insert_one id oid v (c : Collection Vote) :
  votes_for id (Mongo.insert_one oid v c) =
  (votes_for id c + (if String.eqb (vote_issue_id v) id then 1 else 0))%nat.
Proof.
  unfold Mongo.insert_one. rewrite votes_for_app, votes_for_cons.
  unfold by_key. simpl. unfold votes_for. simpl. lia.
Qed.

Lemma votes_for_remove id d (l1 l2 : Collection Vote) :
  votes_for id (l1 ++ d :: l2) =
  (votes_for id (l1 ++ l2) + (if by_key vote_issue_id id d then 1 else 0))%nat.
Proof. rewrite !votes_for_app, votes_for_cons. lia. Qed.

Lemma votes_for_absent id (c : Collection Vote) :
  ~ In id (ids_of vote_issue_id c) -> votes_for id c = 0%nat.
Proof.
  induction c as [|d c IH]; intros H; [reflexivity|].
  rewrite votes_for_cons. unfold by_key.
  destruct (String.eqb_spec (vote_issue_id (body d)) id) as [E|_].
  - exfalso. apply H. now left.
  - apply IH. intros Hin. apply H. now right.
Qed.

(** ** The generators' assumption, unpacked *)

Lemma known_ids_issue db s :
  ~ In s (known_ids db) ->
  ~ In s (ids_of issue_id_ (issues db))
  /\ ~ In s (ids_of vote_issue_id (votes db))
  /\ ~ In s (ids_of vote_id_ (votes db)).
Proof.
  unfold known_ids. intros H. repeat split; intros Hin; apply H;
    repeat (apply in_or_app; first [now left | right]).
Qed.

Lemma admissible_one env req db :
  draws req = 1%nat -> admissible env req db = true ->
  ~ In (uuid4 env 0) (known_ids db)
  /\ is_uuid_str (uuid4 env 0) = true
  /\ is_object_id_str (new_object_id env 0) = true.
Proof.
  unfold admissible. intros ->. simpl.
  rewrite !andb_true_r, !andb_true_iff, negb_true_iff, mem_false. tauto.
Qed.

(** ** Preservation of the invariants *)

Lemma well_formed_same_votes db db' :
  issues db' = issues db -> votes db' = votes db ->
  well_formed db -> well_formed db'.
Proof.
  intros Hi Hv [H1 H2 H3 H4].
  constructor; unfold vote_count_consistent; rewrite ?Hi, ?Hv; assumption.
Qed.

Lemma inc_vote_count_id n i : issue_id_ (inc_vote_count n i) = issue_id_ i.
Proof. reflexivity. Qed.

Lemma inc_vote_count_undo n i : inc_vote_count (- n) (inc_vote_count n i) = i.
Proof.
  destruct i. unfold inc_vote_count. simpl. f_equal. lia.
Qed.

Lemma well_formed_empty : well_formed empty_store.
Proof.
  constructor; simpl; try constructor. intros d [].
Qed.

Lemma create_issue_well_formed env issue_data user_id db :
  well_formed db ->
  ~ In (uuid4 env 0) (known_ids db) ->
  is_uuid_str (uuid4 env 0) = true ->
  well_formed (snd (create_issue env issue_data user_id db)).
Proof.
  intros Hwf Hfresh Huuid.
  apply known_ids_issue in Hfresh. destruct Hfresh as [Hi [Hvi _]].
  unfold create_issue.
  match goal with |- context [match ?t with Return _ => _ | _ => _ end] =>
    destruct t as [tr|c d|e]; simpl; try assumption end.
  destruct Hwf as [H1 H2 H3 H4].
  constructor; simpl.
  - rewrite ids_of_insert_one. now apply NoDup_snoc.
  - assumption.
  - rewrite ids_of_insert_one. apply Forall_app. split; [assumption|].
    constructor; [assumption|constructor].
  - intros d Hd. simpl in Hd. unfold Mongo.insert_one in Hd.
    apply in_app_or in Hd. destruct Hd as [Hd|[<-|[]]].
    + now apply H4.
    + simpl. now rewrite votes_for_absent.
Qed.

Lemma vote_issue_well_formed env issue_id user_id db :
  well_formed db ->
  ~ In (uuid4 env 0) (known_ids db) ->
  well_formed (snd (vote_issue env issue_id user_id db)).
Proof.
  intros [H1 H2 H3 H4] Hfresh.
  apply known_ids_issue in Hfresh. destruct Hfresh as [_ [_ Hv]].
  unfold vote_issue.
  destruct (Mongo.find_one (by_issue_and_user issue_id user_id) (votes db))
    as [ev|] eqn:Efind; simpl.
  - apply find_one_in in Efind. destruct Efind as [Hin Hq].
    unfold by_issue_and_user in Hq. apply andb_true_iff in Hq.
    destruct Hq as [Hq _].
    destruct (delete_one_unique vote_id_ (votes db) ev H2 Hin)
      as [l1 [l2 [Hsplit Hdel]]].
    unfold by_id_vote. rewrite Hdel.
    constructor; simpl.
    + unfold by_id_issue. now rewrite (update_one_keys issue_id_).
    + rewrite Hsplit in H2. unfold ids_of in *. rewrite map_app in *.
      simpl in H2. now apply NoDup_remove_1 in H2.
    + unfold by_id_issue. now rewrite (update_one_keys issue_id_).
    + intros d Hd. simpl in Hd. unfold by_id_issue in Hd.
      rewrite (update_one_unique issue_id_) in Hd by assumption.
      apply in_map_iff in Hd. destruct Hd as [d0 [<- Hd0]].
      specialize (H4 d0 Hd0). rewrite Hsplit, votes_for_remove in H4.
      cbn [votes]. unfold by_key in *.
      destruct (String.eqb_spec (issue_id_ (body d0)) issue_id) as [E|E]; simpl.
      * rewrite H4, E, Hq. lia.
      * rewrite H4.
        apply String.eqb_eq in Hq. rewrite Hq.
        destruct (String.eqb_spec issue_id (issue_id_ (body d0))); [congruence|lia].
  - constructor; simpl.
    + unfold by_id_issue. now rewrite (update_one_keys issue_id_).
    + rewrite ids_of_insert_one. now apply NoDup_snoc.
    + unfold by_id_issue. now rewrite (update_one_keys issue_id_).
    + intros d Hd. simpl in Hd. unfold by_id_issue in Hd.
      rewrite (update_one_unique issue_id_) in Hd by assumption.
      apply in_map_iff in Hd. destruct Hd as [d0 [<- Hd0]].
      specialize (H4 d0 Hd0). cbn [votes]. rewrite votes_for_insert_one.
      cbn [vote_issue_id]. unfold by_key.
      destruct (String.eqb_spec (issue_id_ (body d0)) issue_id) as [E|E]; simpl.
      * rewrite H4, E, String.eqb_refl. lia.
      * rewrite H4.
        destruct (String.eqb_spec issue_id (issue_id_ (body d0))); [congruence|lia].
Qed.

Lemma step_well_formed sha env req db :
  well_formed db -> admissible env req db = true ->
  well_formed (step sha env req db).
Proof.
  intros Hwf Hadm. destruct req; simpl; try assumption.
  - apply (well_formed_same_votes db); try assumption;
      unfold register_user; destruct (Mongo.find_one _ _); reflexivity.
  - now apply (well_formed_same_votes db).
  - destruct (admissible_one env (CreateIssue issue_data user_id) db eq_refl Hadm)
      as [Hf [Hu _]].
    now apply create_issue_well_formed.
  - destruct (admissible_one env (VoteIssue issue_id user_id) db eq_refl Hadm)
      as [Hf _].
    now apply vote_issue_well_formed.
  - now apply (well_formed_same_votes db).
Qed.

Lemma run_well_formed sha tr : forall db,
  well_formed db -> admissible_run sha tr db = true ->
  Forall well_formed (run sha tr db).
Proof.
  induction tr as [|[env req] tr IH]; intros db Hwf Hadm; simpl; [constructor|].
  simpl in Hadm. apply andb_true_iff in Hadm. destruct Hadm as [Ha Hr].
  pose proof (step_well_formed sha env req db Hwf Ha) as Hwf'.
  constructor; [assumption|now apply IH].
Qed.

(** ** The vote counter *)

Example sample_trace_counters :
  List.map (fun db => List.map (fun d => issue_vote_count (body d)) (issues db))
    (run Sample.sha Sample.trace empty_store)
  = [[0]; [1]; [2]; [1]; [1]].
Proof. vm_compute. reflexivity. Qed.

Example sample_trace_votes :
  List.map (fun db => List.length (votes db)) (run Sample.sha Sample.trace empty_store)
  = [0; 1; 2; 1; 2]%nat.
Proof. vm_compute. reflexivity. Qed.

(** C1.  Along every sequential execution that starts from the empty store
    (with uuids that are fresh when they are drawn), after each request the
    [vote_count] of every stored issue equals the number of stored votes
    whose [issue_id] is the issue's stored [id]. *)
Theorem vote_count_matches_votes sha tr :
  admissible_run sha tr empty_store = true ->
  Forall vote_count_consistent (run sha tr empty_store).
Proof.
  intros Hadm.
  apply Forall_impl with (P := well_formed); [intros db; apply wf_counts|].
  apply run_well_formed; [apply well_formed_empty|assumption].
Qed.

Lemma vote_count_matches_votes_witness :
  admissible_run Sample.sha Sample.trace empty_store = true
  /\ Forall vote_count_consistent (run Sample.sha Sample.trace empty_store).
Proof.
  split.
  - vm_compute. reflexivity.
  - apply vote_count_matches_votes. vm_compute. reflexivity.
Defined.

(** ** Toggling a vote *)

Lemma vote_count_of_update n issue_id db u c v k :
  vote_count_of issue_id
    (mkStore u c
       (Mongo.update_one (by_id_issue issue_id) (inc_vote_count n) (issues db)) v k)
  = option_map (fun m => m + n) (vote_count_of issue_id db).
Proof.
  unfold vote_count_of, by_id_issue. cbn [issues].
  rewrite (update_one_find_one issue_id_) by reflexivity.
  now destruct (Mongo.find_one (by_key issue_id_ issue_id) (issues db)).
Qed.

Lemma vote_count_of_update_other n issue_id db u c v k other :
  other <> issue_id ->
  vote_count_of other
    (mkStore u c
       (Mongo.update_one (by_id_issue issue_id) (inc_vote_count n) (issues db)) v k)
  = vote_count_of other db.
Proof.
  intros Hne. unfold vote_count_of, by_id_issue. cbn [issues].
  now rewrite (update_one_find_other issue_id_) by (reflexivity || assumption).
Qed.

(** C2.  [vote_issue] is a toggle.  When a vote of the pair is stored, that
    vote is deleted, the counter of the issue goes down by one and the answer
    is [voted = false]; otherwise a vote of the pair is inserted, the counter
    goes up by one and the answer is [voted = true].  Counters of other
    issues stay as they are.  Hence a second toggle after a first one that
    answered [true] answers [false] and gives the store back, so the counter
    has its original value. *)
Theorem vote_issue_toggles env issue_id user_id db :
  NoDup (ids_of vote_id_ (votes db)) ->
  ~ In (uuid4 env 0) (ids_of vote_id_ (votes db)) ->
  let r := fst (vote_issue env issue_id user_id db) in
  let db1 := snd (vote_issue env issue_id user_id db) in
  (forall ev,
      Mongo.find_one (by_issue_and_user issue_id user_id) (votes db) = Some ev ->
      voted_flag r = Some false
      /\ (exists l1 l2, votes db = l1 ++ ev :: l2 /\ votes db1 = l1 ++ l2)
      /\ vote_count_of issue_id db1
         = option_map (fun n => n - 1) (vote_count_of issue_id db)
      /\ (forall other, other <> issue_id ->
            vote_count_of other db1 = vote_count_of other db))
  /\ (Mongo.find_one (by_issue_and_user issue_id user_id) (votes db) = None ->
      voted_flag r = Some true
      /\ votes db1
         = votes db ++ [mkDoc (new_object_id env 0)
                          (mkVote (uuid4 env 0) issue_id user_id (utcnow env 0))]
      /\ vote_count_of issue_id db1
         = option_map (fun n => n + 1) (vote_count_of issue_id db)
      /\ (forall other, other <> issue_id ->
            vote_count_of other db1 = vote_count_of other db)
      /\ forall env2,
           voted_flag (fst (vote_issue env2 issue_id user_id db1)) = Some false
           /\ snd (vote_issue env2 issue_id user_id db1) = db
           /\ vote_count_of issue_id (snd (vote_issue env2 issue_id user_id db1))
              = vote_count_of issue_id db).
Proof.
  intros Hnd Hfresh r db1. subst r db1. unfold vote_issue.
  destruct (Mongo.find_one (by_issue_and_user issue_id user_id) (votes db))
    as [ev0|] eqn:Efind; split; try discriminate.
  - intros ev [= <-]. cbn [fst snd votes voted_flag payload].
    apply find_one_in in Efind. destruct Efind as [Hin _].
    destruct (delete_one_unique vote_id_ (votes db) ev0 Hnd Hin)
      as [l1 [l2 [Hsplit Hdel]]].
    split; [reflexivity|]. split.
    + exists l1, l2. split; [assumption|]. unfold by_id_vote. exact Hdel.
    + split; [apply (vote_count_of_update (-1))|].
      intros other Hne. now apply vote_count_of_update_other.
  - intros _. cbn [fst snd votes voted_flag payload].
    split; [reflexivity|]. split; [reflexivity|].
    split; [apply (vote_count_of_update 1)|].
    split; [intros other Hne; now apply vote_count_of_update_other|].
    intros env2. cbn [votes issues users categories comments].
    rewrite find_one_insert_one, Efind.
    assert (Hq : by_issue_and_user issue_id user_id
              (mkDoc (new_object_id env 0)
                 (mkVote (uuid4 env 0) issue_id user_id (utcnow env 0))) = true).
    { unfold by_issue_and_user, by_key. cbn [body vote_issue_id vote_user_id].
      now rewrite !String.eqb_refl. }
    rewrite Hq. cbn [fst snd voted_flag payload body vote_id_].
    assert (Hdb : mkStore (users db) (categories db)
              (Mongo.update_one (by_id_issue issue_id) (inc_vote_count (-1))
                 (Mongo.update_one (by_id_issue issue_id) (inc_vote_count 1) (issues db)))
              (Mongo.delete_one (by_id_vote (uuid4 env 0))
                 (Mongo.insert_one (new_object_id env 0)
                    (mkVote (uuid4 env 0) issue_id user_id (utcnow env 0)) (votes db)))
              (comments db) = db).
    { unfold by_id_issue, by_id_vote.
      rewrite (update_one_undo issue_id_)
        by (reflexivity || apply (inc_vote_count_undo 1)).
      rewrite (delete_one_insert_one vote_id_ _
                 (mkVote (uuid4 env 0) issue_id user_id (utcnow env 0)))
        by exact Hfresh.
      now destruct db. }
    rewrite Hdb. repeat split.
Qed.

Lemma vote_issue_toggles_witness :
  NoDup (ids_of vote_id_ (votes Sample.db_one_issue))
  /\ ~ In (uuid4 Sample.env_b 0) (ids_of vote_id_ (votes Sample.db_one_issue))
  /\ voted_flag (fst (vote_issue Sample.env_b Sample.uuid_a "u1" Sample.db_one_issue))
     = Some true
  /\ voted_flag
       (fst (vote_issue Sample.env_c Sample.uuid_a "u1"
               (snd (vote_issue Sample.env_b Sample.uuid_a "u1" Sample.db_one_issue))))
     = Some false
  /\ vote_count_of Sample.uuid_a
       (snd (vote_issue Sample.env_b Sample.uuid_a "u1" Sample.db_one_issue))
     = Some 1
  /\ snd (vote_issue Sample.env_c Sample.uuid_a "u1"
            (snd (vote_issue Sample.env_b Sample.uuid_a "u1" Sample.db_one_issue)))
     = Sample.db_one_issue.
Proof.
  assert (H1 : NoDup (ids_of vote_id_ (votes Sample.db_one_issue))) by constructor.
  assert (H2 : ~ In (uuid4 Sample.env_b 0) (ids_of vote_id_ (votes Sample.db_one_issue)))
    by (intros []).
  split; [exact H1|]. split; [exact H2|].
  destruct (vote_issue_toggles Sample.env_b Sample.uuid_a "u1" Sample.db_one_issue H1 H2)
    as [_ Hnone].
  destruct (Hnone eq_refl) as [Ht [_ [Hc [_ Hback]]]].
  destruct (Hback Sample.env_c) as [Hf [Hdb _]].
  split; [exact Ht|]. split; [exact Hf|]. split; [exact Hc|exact Hdb].
Defined.

(** ** Creating an issue and reading it back *)

Lemma find_one_by_object_id_none oid (c : Collection Issue) :
  is_object_id_str oid = true ->
  Forall (fun s => is_uuid_str s = true) (ids_of issue_id_ c) ->
  Mongo.find_one (by_id_issue oid) c = None.
Proof.
  intros Hoid Hall. induction c as [|d c IH]; [reflexivity|].
  simpl in Hall. inversion Hall as [|? ? Hd Hc]; subst.
  simpl. unfold by_id_issue at 1. unfold by_key.
  destruct (String.eqb_spec (issue_id_ (body d)) oid) as [E|_].
  - exfalso. rewrite E in Hd. exact (uuid_is_not_object_id oid Hd Hoid).
  - exact (IH Hc).
Qed.

(** The issue is stored under its generated uuid: looking that uuid up gives
    the issue with [vote_count = 0] and [status = "pending"]. *)
Lemma created_issue_found_by_stored_id env issue_data user_id db r :
  ~ In (uuid4 env 0) (ids_of issue_id_ (issues db)) ->
  fst (create_issue env issue_data user_id db) = Return r ->
  exists v,
    get_issue (uuid4 env 0) (snd (create_issue env issue_data user_id db)) = Return v
    /\ issue_vote_count (iv_issue v) = 0
    /\ issue_status (iv_issue v) = "pending"%string
    /\ iv_issue v = payload r.
Proof.
  intros Hfresh. unfold create_issue.
  match goal with |- context [match ?t with Return _ => _ | _ => _ end] =>
    destruct t as [tr|c d|e]; cbn [fst snd]; try discriminate end.
  intros [= <-]. unfold get_issue. cbn [issues set_issues].
  rewrite find_one_insert_one.
  destruct (Mongo.find_one (by_id_issue (uuid4 env 0)) (issues db)) as [d|] eqn:E.
  - exfalso. apply find_one_in in E. destruct E as [Hin Hq].
    apply Hfresh. unfold by_id_issue, by_key in Hq. apply String.eqb_eq in Hq.
    rewrite <- Hq. unfold ids_of. apply in_map_iff. now exists d.
  - unfold by_id_issue at 1. unfold by_key. cbn [body issue_id_].
    rewrite String.eqb_refl. eexists. split; [reflexivity|]. repeat split.
Qed.

(** C3.  The [id] in the payload of [create_issue] is the text of the
    ObjectId the driver generated, while [get_issue] looks issues up by the
    uuid stored in their [id] field: passing the returned [id] to
    [get_issue] right after the creation answers 404. *)
Theorem created_issue_not_found_by_returned_id env issue_data user_id db r :
  Forall (fun s => is_uuid_str s = true) (ids_of issue_id_ (issues db)) ->
  is_uuid_str (uuid4 env 0) = true ->
  is_object_id_str (new_object_id env 0) = true ->
  fst (create_issue env issue_data user_id db) = Return r ->
  get_issue (issue_id_ (payload r)) (snd (create_issue env issue_data user_id db))
  = HTTPException 404 "Issue not found".
Proof.
  intros Hall Huuid Hoid. unfold create_issue.
  match goal with |- context [match ?t with Return _ => _ | _ => _ end] =>
    destruct t as [tr|c d|e]; cbn [fst snd]; try discriminate end.
  intros [= <-]. cbn [payload set_issue_id issue_id_].
  unfold get_issue. cbn [issues set_issues].
  rewrite find_one_by_object_id_none; [reflexivity|assumption|].
  rewrite ids_of_insert_one. apply Forall_app. split; [assumption|].
  constructor; [assumption|constructor].
Qed.

Lemma created_issue_not_found_by_returned_id_witness :
  Forall (fun s => is_uuid_str s = true) (ids_of issue_id_ (issues empty_store))
  /\ fst (create_issue Sample.env_a Sample.pothole "u1" empty_store)
     = Return (mkResponse true
                 (mkIssue Sample.oid_a "u1" "roads" "Pothole on Main Street"
                    "Large pothole near the intersection" None None None
                    40.7128%float (-74.0060)%float (Some "123 Main Street"%string)
                    "pending" None None 0 100 100)
                 "Issue reported successfully")
  /\ get_issue Sample.oid_a (snd (create_issue Sample.env_a Sample.pothole "u1" empty_store))
     = HTTPException 404 "Issue not found".
Proof.
  split; [constructor|]. split; [reflexivity|].
  apply (created_issue_not_found_by_returned_id Sample.env_a Sample.pothole "u1"
           empty_store _ (Forall_nil _) eq_refl eq_refl eq_refl).
Defined.

(** ** Sorting *)

Section SortFacts.
Context {A : Type}.
Variable before : Doc A -> Doc A -> bool.
Hypothesis before_total : forall a b, before a b = false -> before b a = true.
Hypothesis before_trans :
  forall a b c, before a b = true -> before b c = true -> before a c = true.

Let R (a b : Doc A) : Prop := before a b = true.

Lemma insert_sorted_perm d (c : list (Doc A)) :
  Permutation (Mongo.insert_sorted before d c) (d :: c).
Proof.
  induction c as [|x c IH]; simpl; [reflexivity|].
  destruct (before d x); [reflexivity|].
  rewrite IH. apply perm_swap.
Qed.

Lemma sort_perm (c : list (Doc A)) : Permutation (Mongo.sort before c) c.
Proof.
  induction c as [|x c IH]; simpl; [reflexivity|].
  rewrite insert_sorted_perm. now constructor.
Qed.

Lemma insert_sorted_strongly d (c : list (Doc A)) :
  StronglySorted R c -> StronglySorted R (Mongo.insert_sorted before d c).
Proof.
  induction c as [|x c IH]; intros Hs; simpl.
  - constructor; constructor.
  - apply StronglySorted_inv in Hs. destruct Hs as [Hc Hx].
    destruct (before d x) eqn:E.
    + constructor; [now constructor|].
      constructor; [exact E|].
      eapply Forall_impl; [|exact Hx]. intros y Hy. exact (before_trans _ _ _ E Hy).
    + constructor; [now apply IH|].
      apply (@Permutation_Forall _ _ (d :: c));
        [symmetry; apply insert_sorted_perm|].
      constructor; [now apply before_total|assumption].
Qed.

Lemma sort_strongly (c : list (Doc A)) : StronglySorted R (Mongo.sort before c).
Proof.
  induction c as [|x c IH]; simpl; [constructor|now apply insert_sorted_strongly].
Qed.

End SortFacts.

Lemma Forall_firstn_of {A : Type} (P : A -> Prop) n (l : list A) :
  Forall P l -> Forall P (firstn n l).
Proof.
  revert n; induction l as [|x l IH]; intros [|n] H; simpl; try constructor.
  - now inversion H.
  - apply IH. now inversion H.
Qed.

Lemma firstn_strongly {A : Type} (R : A -> A -> Prop) n (l : list A) :
  StronglySorted R l -> StronglySorted R (firstn n l).
Proof.
  revert n; induction l as [|x l IH]; intros [|n] H; simpl; try constructor.
  - apply IH. now apply StronglySorted_inv in H.
  - apply Forall_firstn_of. now apply StronglySorted_inv in H.
Qed.

Lemma map_strongly {A B : Type} (R : A -> A -> Prop) (S : B -> B -> Prop) (f : A -> B)
  (l : list A) :
  (forall a b, R a b -> S (f a) (f b)) ->
  StronglySorted R l -> StronglySorted S (List.map f l).
Proof.
  intros Hf. induction 1 as [|x l Hl IH Hx]; simpl; constructor; [assumption|].
  apply Forall_map. eapply Forall_impl; [|exact Hx]. intros y. apply Hf.
Qed.

Lemma issue_before_desc a b :
  issue_before a b = true <-> issue_desc (body a) (body b).
Proof.
  unfold issue_before, issue_desc.
  rewrite orb_true_iff, andb_true_iff, Z.ltb_lt, Z.eqb_eq, Z.leb_le. tauto.
Qed.

Lemma issue_before_total a b : issue_before a b = false -> issue_before b a = true.
Proof.
  intros H. apply issue_before_desc.
  assert (Hn : ~ issue_desc (body a) (body b))
    by (rewrite <- issue_before_desc; congruence).
  unfold issue_desc in *. lia.
Qed.

Lemma issue_before_trans a b c :
  issue_before a b = true -> issue_before b c = true -> issue_before a c = true.
Proof.
  rewrite !issue_before_desc. unfold issue_desc. lia.
Qed.

Lemma comment_before_total a b :
  comment_before a b = false -> comment_before b a = true.
Proof. unfold comment_before. rewrite Z.leb_gt, Z.leb_le. lia. Qed.

Lemma comment_before_trans a b c :
  comment_before a b = true -> comment_before b c = true -> comment_before a c = true.
Proof. unfold comment_before. rewrite !Z.leb_le. lia. Qed.

(** ** Listing issues *)

(** What the pipeline of [get_issues] computes. *)
Lemma get_issues_unfold lat lng radius category_id limit db :
  get_issues lat lng radius category_id limit db =
  if limit_accepted limit then
    Return (List.map (issue_with_context db)
              (Mongo.to_list limit
                 (List.firstn (Z.to_nat limit)
                    (Mongo.sort issue_before
                       (List.filter
                          (fun d => List.forallb (condition_holds d)
                                      (match_conditions lat lng category_id))
                          (issues db))))))
  else Uncaught (PyException "the limit must be positive").
Proof.
  unfold get_issues.
  destruct (match_conditions lat lng category_id) as [|m conds] eqn:E; simpl.
  - replace (List.filter (fun _ : Doc Issue => true) (issues db)) with (issues db).
    + now destruct (limit_accepted limit).
    + induction (issues db) as [|x l IH]; simpl; [reflexivity|now rewrite <- IH].
  - now destruct (limit_accepted limit).
Qed.

(** Every row of the answer is a stored issue that passes all conditions. *)
Lemma get_issues_rows lat lng radius category_id limit db l v :
  get_issues lat lng radius category_id limit db = Return l -> In v l ->
  exists d, In d (issues db) /\ v = issue_with_context db d
            /\ List.forallb (condition_holds d) (match_conditions lat lng category_id) = true.
Proof.
  rewrite get_issues_unfold. destruct (limit_accepted limit); [|discriminate].
  intros [= <-] Hin. apply in_map_iff in Hin. destruct Hin as [d [<- Hd]].
  exists d. unfold Mongo.to_list in Hd.
  assert (Hd' : In d (List.filter
                        (fun d => List.forallb (condition_holds d)
                                    (match_conditions lat lng category_id))
                        (issues db))).
  { apply (Permutation_in d (sort_perm issue_before _)).
    revert d Hd. apply Forall_forall.
    do 2 apply Forall_firstn_of. apply Forall_forall. auto. }
  apply filter_In in Hd'. tauto.
Qed.

Lemma get_issues_sorted lat lng radius category_id limit db l :
  get_issues lat lng radius category_id limit db = Return l ->
  StronglySorted issue_desc (List.map iv_issue l).
Proof.
  rewrite get_issues_unfold. destruct (limit_accepted limit); [|discriminate].
  intros [= <-]. rewrite map_map. unfold Mongo.to_list.
  apply map_strongly with (R := fun a b => issue_before a b = true).
  - intros a b H. now apply issue_before_desc in H.
  - do 2 apply firstn_strongly.
    apply sort_strongly; [apply issue_before_total|apply issue_before_trans].
Qed.

Lemma get_issues_at_most_limit lat lng radius category_id limit db l :
  get_issues lat lng radius category_id limit db = Return l ->
  Z.of_nat (List.length l) <= limit.
Proof.
  rewrite get_issues_unfold. destruct (limit_accepted limit) eqn:E; [|discriminate].
  intros [= <-]. rewrite length_map. unfold Mongo.to_list.
  pose proof (firstn_le_length (Z.to_nat limit)
                (List.firstn (Z.to_nat limit)
                   (Mongo.sort issue_before
                      (List.filter
                         (fun d => List.forallb (condition_holds d)
                                     (match_conditions lat lng category_id))
                         (issues db))))) as Hle.
  unfold limit_accepted in E. apply andb_true_iff in E. destruct E as [E _].
  apply Z.leb_le in E. lia.
Qed.

Lemma get_issues_returns lat lng radius category_id limit db :
  returns (get_issues lat lng radius category_id limit db) = limit_accepted limit.
Proof. rewrite get_issues_unfold. now destruct (limit_accepted limit). Qed.

(** When both coordinates are truthy, every row lies in the box around the
    point. *)
Lemma get_issues_location_filter lat lng radius category_id limit db l v :
  float_truthy (Some lat) = true -> float_truthy (Some lng) = true ->
  get_issues (Some lat) (Some lng) radius category_id limit db = Return l ->
  In v l ->
  within_box (issue_location_lat (iv_issue v)) lat = true
  /\ within_box (issue_location_long (iv_issue v)) lng = true.
Proof.
  intros Hlat Hlng Hget Hin.
  destruct (get_issues_rows _ _ _ _ _ _ _ _ Hget Hin) as [d [_ [-> Hc]]].
  unfold match_conditions in Hc. rewrite Hlat, Hlng in Hc.
  cbn [andb app forallb condition_holds] in Hc.
  rewrite !andb_true_iff in Hc. unfold within_box. cbn.
  rewrite !andb_true_iff. tauto.
Qed.

(** When the category is a non-empty string, every row has that category. *)
Lemma get_issues_category_filter lat lng radius c limit db l v :
  str_truthy (Some c) = true ->
  get_issues lat lng radius (Some c) limit db = Return l ->
  In v l ->
  issue_category_id (iv_issue v) = c.
Proof.
  intros Hc Hget Hin.
  destruct (get_issues_rows _ _ _ _ _ _ _ _ Hget Hin) as [d [_ [-> Hall]]].
  unfold match_conditions in Hall. rewrite Hc in Hall.
  rewrite forallb_app in Hall. apply andb_true_iff in Hall.
  destruct Hall as [_ Hall]. cbn in Hall. rewrite andb_true_r in Hall.
  now apply String.eqb_eq in Hall.
Qed.

(** C4.  A latitude of [0.0] is falsy, so with [lat = 0.0] and a longitude
    supplied the location conditions are not built: the listing returns an
    issue located at latitude 40.7128, far outside [-0.05, 0.05]. *)
Theorem get_issues_zero_latitude_not_filtered :
  exists v,
    get_issues (Some 0%float) (Some (-74.0060)%float) (Some 5%float) None 50
      Sample.db_one_issue = Return [v]
    /\ issue_location_lat (iv_issue v) = 40.7128%float
    /\ within_box (issue_location_lat (iv_issue v)) 0%float = false
    /\ PrimFloat.leb (issue_location_lat (iv_issue v)) (0 + 0.05)%float = false.
Proof.
  eexists. split; [vm_compute; reflexivity|].
  repeat split; vm_compute; reflexivity.
Qed.

(** The same request with a latitude that is not zero filters the issue out. *)
Example get_issues_small_latitude_filtered :
  get_issues (Some 0.01%float) (Some (-74.0060)%float) (Some 5%float) None 50
    Sample.db_one_issue = Return [].
Proof. vm_compute. reflexivity. Qed.

(** C5.  Two listings that differ only in [radius] give the same answer. *)
Theorem get_issues_ignores_radius lat lng radius1 radius2 category_id limit db :
  get_issues lat lng radius1 category_id limit db
  = get_issues lat lng radius2 category_id limit db.
Proof. now rewrite !get_issues_unfold. Qed.

(** ** Transcription failures *)

Lemma transcribe_audio_fallback env audio e :
  send_message env = LlmRaises e -> is_Exception e = true ->
  transcribe_audio env audio = Return transcript_failed.
Proof. intros Hs He. unfold transcribe_audio. now rewrite Hs, He. Qed.

(** C6.  When the request carries a voice attachment and the transcription
    call raises an error, [create_issue] still returns its success payload,
    the issue is appended to the collection, and both the stored issue and
    the payload carry the fixed text
    ["Voice note recorded (transcription failed)"] as [voice_transcript]. *)
Theorem create_issue_survives_transcription_failure env issue_data user_id db audio e :
  ic_voice_base64 issue_data = Some audio ->
  audio <> EmptyString ->
  send_message env = LlmRaises e ->
  is_Exception e = true ->
  exists r stored,
    fst (create_issue env issue_data user_id db) = Return r
    /\ success r = true
    /\ payload r = set_issue_id stored (new_object_id env 0)
    /\ issues (snd (create_issue env issue_data user_id db))
       = issues db ++ [mkDoc (new_object_id env 0) stored]
    /\ issue_voice_base64 stored = Some audio
    /\ issue_voice_transcript stored
       = Some "Voice note recorded (transcription failed)"%string.
Proof.
  intros Hv Hne Hs He. unfold create_issue. rewrite Hv.
  assert (Ht : str_truthy (Some audio) = true).
  { simpl. now destruct (String.eqb_spec audio EmptyString). }
  rewrite Ht, (transcribe_audio_fallback env audio e Hs He).
  cbn [fst snd issues set_issues]. do 2 eexists.
  repeat split.
Qed.

Lemma create_issue_survives_transcription_failure_witness :
  ic_voice_base64 Sample.voice_report = Some "UklGRg=="%string
  /\ send_message Sample.env_llm_down = LlmRaises (PyException "connection refused")
  /\ exists r stored,
       fst (create_issue Sample.env_llm_down Sample.voice_report "u1" empty_store) = Return r
       /\ success r = true
       /\ payload r = set_issue_id stored (new_object_id Sample.env_llm_down 0)
       /\ issues (snd (create_issue Sample.env_llm_down Sample.voice_report "u1" empty_store))
          = issues empty_store ++ [mkDoc (new_object_id Sample.env_llm_down 0) stored]
       /\ issue_voice_base64 stored = Some "UklGRg=="%string
       /\ issue_voice_transcript stored
          = Some "Voice note recorded (transcription failed)"%string.
Proof.
  split; [reflexivity|]. split; [reflexivity|].
  apply (create_issue_survives_transcription_failure Sample.env_llm_down
           Sample.voice_report "u1" empty_store "UklGRg=="
           (PyException "connection refused") eq_refl);
    [discriminate|reflexivity|reflexivity].
Defined.

(** An exception that [except Exception] does not catch (a cancellation)
    escapes the handler and nothing is stored. *)
Lemma create_issue_cancelled issue_data user_id db audio uuid oid now :
  ic_voice_base64 issue_data = Some audio -> audio <> EmptyString ->
  create_issue (Sample.env_of uuid oid now (LlmRaises (PyBaseException "cancelled")))
    issue_data user_id db
  = (Uncaught (PyBaseException "cancelled"), db).
Proof.
  intros Hv Hne. unfold create_issue. rewrite Hv.
  simpl. now destruct (String.eqb_spec audio EmptyString).
Qed.

(** ** Default categories *)

Lemma delete_many_all {A : Type} (c : Collection A) :
  Mongo.delete_many (fun _ => true) c = [].
Proof. unfold Mongo.delete_many. induction c; simpl; auto. Qed.

Lemma init_categories_rows env db :
  category_rows (snd (init_categories env db))
  = List.map (fun '(n, d, i) => (n, d, Some i)) default_categories.
Proof.
  unfold init_categories, category_rows. cbn [snd categories set_categories].
  rewrite delete_many_all. reflexivity.
Qed.

Lemma category_names_rows db :
  category_names db = List.map (fun r => fst (fst r)) (category_rows db).
Proof. unfold category_names, category_rows. now rewrite map_map. Qed.

Lemma distinct_NoDup l : distinct l = true -> NoDup l.
Proof.
  induction l as [|s l IH]; simpl; intros H; constructor;
    apply andb_true_iff in H; destruct H as [Hs Hl].
  - apply negb_true_iff in Hs. now apply mem_false.
  - now apply IH.
Qed.

(** C7.  Whatever the categories were, after [init_categories] the
    collection holds exactly the seven default categories, with the names
    below in this order and no name twice; running it again leaves the same
    names, descriptions and icons. *)
Theorem init_categories_resets env db :
  category_names (snd (init_categories env db))
  = ["Roads & Transportation"; "Water & Sanitation"; "Electricity";
     "Waste Management"; "Public Safety"; "Parks & Recreation"; "Other"]%string
  /\ List.length (categories (snd (init_categories env db))) = 7%nat
  /\ NoDup (category_names (snd (init_categories env db)))
  /\ forall env2,
       category_rows (snd (init_categories env2 (snd (init_categories env db))))
       = category_rows (snd (init_categories env db))
       /\ List.length (categories (snd (init_categories env2 (snd (init_categories env db)))))
          = 7%nat.
Proof.
  assert (Hnames : forall e d,
            category_names (snd (init_categories e d))
            = ["Roads & Transportation"; "Water & Sanitation"; "Electricity";
               "Waste Management"; "Public Safety"; "Parks & Recreation";
               "Other"]%string).
  { intros e d. now rewrite category_names_rows, init_categories_rows. }
  assert (Hlen : forall e d, List.length (categories (snd (init_categories e d))) = 7%nat).
  { intros e d. unfold init_categories. cbn [snd categories set_categories].
    now rewrite delete_many_all. }
  split; [apply Hnames|]. split; [apply Hlen|]. split.
  - rewrite Hnames. apply distinct_NoDup. reflexivity.
  - intros env2. split; [now rewrite !init_categories_rows|apply Hlen].
Qed.

(** ** Registration *)

Lemma find_one_by_key_some {A : Type} (key : A -> string) k (c : Collection A) :
  (exists d, In d c /\ key (body d) = k) <->
  exists d, Mongo.find_one (by_key key k) c = Some d.
Proof.
  split.
  - intros [d [Hin Hk]].
    destruct (Mongo.find_one (by_key key k) c) as [d'|] eqn:E; [now exists d'|].
    pose proof (find_one_none _ _ E d Hin) as Hq.
    unfold by_key in Hq. rewrite Hk, String.eqb_refl in Hq. discriminate.
  - intros [d Hd]. apply find_one_in in Hd. destruct Hd as [Hin Hq].
    exists d. split; [assumption|]. now apply String.eqb_eq in Hq.
Qed.

Lemma find_one_by_key_none {A : Type} (key : A -> string) k (c : Collection A) :
  (forall d, In d c -> key (body d) <> k) <->
  Mongo.find_one (by_key key k) c = None.
Proof.
  split.
  - intros Hall. destruct (Mongo.find_one (by_key key k) c) as [d|] eqn:E; [|reflexivity].
    apply find_one_in in E. destruct E as [Hin Hq].
    apply String.eqb_eq in Hq. now apply Hall in Hin.
  - intros E d Hin Hk. pose proof (find_one_none _ _ E d Hin) as Hq.
    unfold by_key in Hq. rewrite Hk, String.eqb_refl in Hq. discriminate.
Qed.

(** C8.  [register_user] raises the 400 "Email already registered" error
    exactly when a stored user has the email, and returns otherwise.  After
    a registration that returned, any further registration with that email
    raises the error, stores nothing, and exactly one user has the email. *)
Theorem register_user_duplicate_email sha env user_data db :
  (fst (register_user sha env user_data db)
     = HTTPException 400 "Email already registered"
   <-> email_taken (uc_email user_data) db)
  /\ (returns (fst (register_user sha env user_data db)) = true
      <-> ~ email_taken (uc_email user_data) db)
  /\ (returns (fst (register_user sha env user_data db)) = true ->
      forall env2 user_data2,
        uc_email user_data2 = uc_email user_data ->
        let db1 := snd (register_user sha env user_data db) in
        fst (register_user sha env2 user_data2 db1)
          = HTTPException 400 "Email already registered"
        /\ snd (register_user sha env2 user_data2 db1) = db1
        /\ List.length (Mongo.find (by_email (uc_email user_data)) (users db1)) = 1%nat).
Proof.
  unfold email_taken, register_user, by_email.
  destruct (Mongo.find_one (by_key user_email (uc_email user_data)) (users db))
    as [d|] eqn:E; cbn [fst snd returns].
  - assert (Ht : exists d, In d (users db) /\ user_email (body d) = uc_email user_data)
      by (apply find_one_by_key_some; now exists d).
    split; [tauto|]. split; [|discriminate].
    split; [discriminate|]. intros Hn. now elim Hn.
  - pose proof (proj2 (find_one_by_key_none user_email _ _) E) as Hnone.
    assert (Hn : ~ exists d, In d (users db) /\ user_email (body d) = uc_email user_data).
    { intros [d [Hin Hd]]. exact (Hnone d Hin Hd). }
    split; [split; [discriminate|intros H; now elim Hn]|].
    split; [tauto|].
    intros _ env2 user_data2 Heq. cbn [users set_users]. rewrite Heq.
    rewrite find_one_insert_one, E.
    match goal with |- context [by_key user_email ?k ?d] =>
      assert (Hq : by_key user_email k d = true)
        by (unfold by_key; cbn [body user_email]; apply String.eqb_refl)
    end.
    rewrite Hq. cbn [fst snd]. split; [reflexivity|]. split; [reflexivity|].
    unfold Mongo.find, Mongo.insert_one. rewrite filter_app, length_app.
    replace (List.filter (by_key user_email (uc_email user_data)) (users db)) with (@nil (Doc User)).
    + cbn. unfold by_key. cbn. now rewrite String.eqb_refl.
    + symmetry. clear -Hnone. induction (users db) as [|x l IH]; [reflexivity|].
      simpl. unfold by_key at 1.
      destruct (String.eqb_spec (user_email (body x)) (uc_email user_data)) as [Hx|_].
      * exfalso. apply (Hnone x); [now left|assumption].
      * apply IH. intros d Hd. apply Hnone. now right.
Qed.

Lemma register_user_duplicate_email_witness :
  returns (fst (register_user Sample.sha Sample.env_a Sample.alice empty_store)) = true
  /\ fst (register_user Sample.sha Sample.env_b Sample.alice
            (snd (register_user Sample.sha Sample.env_a Sample.alice empty_store)))
     = HTTPException 400 "Email already registered"
  /\ List.length
       (Mongo.find (by_email "alice@example.org")
          (users (snd (register_user Sample.sha Sample.env_a Sample.alice empty_store))))
     = 1%nat.
Proof.
  assert (H : returns (fst (register_user Sample.sha Sample.env_a Sample.alice empty_store))
              = true) by reflexivity.
  split; [exact H|].
  destruct (register_user_duplicate_email Sample.sha Sample.env_a Sample.alice empty_store)
    as [_ [_ Htwice]].
  destruct (Htwice H Sample.env_b Sample.alice eq_refl) as [H1 [_ H3]].
  split; [exact H1|exact H3].
Defined.

(** ** Unknown issue ids *)

Lemma get_comments_rows issue_id db v :
  In v (match get_comments issue_id db with Return l => l | _ => [] end) ->
  exists d, In d (comments db) /\ comment_issue_id (body d) = issue_id
            /\ v = comment_with_author db d.
Proof.
  unfold get_comments, Mongo.to_list. intros Hin.
  apply in_map_iff in Hin. destruct Hin as [d [<- Hd]].
  exists d.
  assert (Hd' : In d (Mongo.find (by_comment_issue issue_id) (comments db))).
  { apply (Permutation_in d (sort_perm comment_before _)).
    revert d Hd. apply Forall_forall.
    apply Forall_firstn_of. apply Forall_forall. auto. }
  unfold Mongo.find in Hd'. apply filter_In in Hd'. destruct Hd' as [Hin Hq].
  unfold by_comment_issue, by_key in Hq. apply String.eqb_eq in Hq. tauto.
Qed.

Lemma get_comments_length issue_id db :
  exists l, get_comments issue_id db = Return l
    /\ List.length l
       = Nat.min 1000 (List.length (Mongo.find (by_comment_issue issue_id) (comments db))).
Proof.
  unfold get_comments, Mongo.to_list. eexists. split; [reflexivity|].
  rewrite length_map, length_firstn.
  rewrite (Permutation_length (sort_perm comment_before _)).
  reflexivity.
Qed.

(** *** Sorting and cutting, up to ties *)

Lemma strongly_sorted_cross {A : Type} (R : A -> A -> Prop) (l1 l2 : list A) :
  StronglySorted R (l1 ++ l2) -> forall x y, In x l1 -> In y l2 -> R x y.
Proof.
  induction l1 as [|a l1 IH]; intros Hs x y Hx Hy; [contradiction|].
  simpl in Hs. apply StronglySorted_inv in Hs. destruct Hs as [Hs Ha].
  destruct Hx as [<-|Hx].
  - rewrite Forall_forall in Ha. apply Ha. apply in_or_app. now right.
  - now apply IH.
Qed.

Lemma firstn_sort_top_of {A : Type} (before : Doc A -> Doc A -> bool)
  (S : Doc A -> Doc A -> Prop) k (all : list (Doc A)) :
  (forall a b, before a b = false -> before b a = true) ->
  (forall a b c, before a b = true -> before b c = true -> before a c = true) ->
  (forall a b, before a b = true -> S a b) ->
  top_of S k all (List.firstn k (Mongo.sort before all)).
Proof.
  intros Htot Htrans HS.
  assert (Hsorted : StronglySorted S (Mongo.sort before all)).
  { rewrite <- (map_id (Mongo.sort before all)).
    apply map_strongly with (R := fun a b => before a b = true); [exact HS|].
    now apply sort_strongly. }
  split; [now apply firstn_strongly|]. split.
  - now rewrite length_firstn, (Permutation_length (sort_perm before all)).
  - exists (List.skipn k (Mongo.sort before all)). split.
    + rewrite firstn_skipn. apply sort_perm.
    + apply strongly_sorted_cross. now rewrite firstn_skipn.
Qed.

(** When the cut is not smaller than the list, nothing is left out. *)
Lemma top_of_all {A : Type} (R : A -> A -> Prop) k (all found : list A) :
  top_of R k all found -> (List.length all <= k)%nat -> Permutation found all.
Proof.
  intros [_ [Hlen [rest [Hperm _]]]] Hk.
  pose proof (Permutation_length Hperm) as Hl. rewrite length_app in Hl.
  destruct rest as [|y rest]; [now rewrite app_nil_r in Hperm|].
  simpl in Hl. lia.
Qed.

Lemma top_of_sub {A : Type} (R : A -> A -> Prop) k (all found : list A) x :
  top_of R k all found -> In x found -> In x all.
Proof.
  intros [_ [_ [rest [Hperm _]]]] Hx.
  apply (Permutation_in x Hperm). apply in_or_app. now left.
Qed.

Lemma get_comments_top issue_id db :
  exists found,
    get_comments issue_id db = Return (List.map (comment_with_author db) found)
    /\ top_of comment_order 1000
         (Mongo.find (by_comment_issue issue_id) (comments db)) found.
Proof.
  unfold get_comments, Mongo.to_list. eexists. split; [reflexivity|].
  change (Z.to_nat 1000) with 1000%nat.
  apply firstn_sort_top_of;
    [apply comment_before_total|apply comment_before_trans|].
  intros a b H. unfold comment_order, comment_desc.
  unfold comment_before in H. now apply Z.leb_le in H.
Qed.

(** The claim C9 as it is worded fails: a comment may be filed under an id
    that no issue carries, and it is then listed. *)
Lemma comments_of_unknown_issue_listed :
  Mongo.find_one (by_id_issue "invalid-id") (issues Sample.db_ghost_comment) = None
  /\ get_issue "invalid-id" Sample.db_ghost_comment = HTTPException 404 "Issue not found"
  /\ get_comments "invalid-id" Sample.db_ghost_comment
     = Return [mkCommentView
                 (mkComment Sample.oid_a "invalid-id" "u1" "hello" 100) None]
  /\ get_comments "invalid-id" Sample.db_ghost_comment <> Return [].
Proof.
  repeat split; try (vm_compute; reflexivity). vm_compute. discriminate.
Qed.

(** C9 (amended).  For an id that no stored issue carries, [get_issue]
    raises 404 "Issue not found", while [get_comments] returns the stored
    comments filed under that id: the rows are the enriched documents of
    [found], which is the list of those comments sorted by [created_at]
    descending and cut to the 1000 newest, so every stored comment of the
    id is a row when there are at most 1000; every row is a stored comment
    of the id; and the list is empty exactly when no stored comment is
    filed under the id. *)
Theorem unknown_issue_not_found_comments_listed issue_id db :
  Mongo.find_one (by_id_issue issue_id) (issues db) = None ->
  get_issue issue_id db = HTTPException 404 "Issue not found"
  /\ exists l,
       get_comments issue_id db = Return l
       /\ (forall v, In v l ->
             exists d, In d (comments db) /\ comment_issue_id (body d) = issue_id
                       /\ v = comment_with_author db d)
       /\ (l = [] <->
           forall d, In d (comments db) -> comment_issue_id (body d) <> issue_id)
       /\ exists found,
            l = List.map (comment_with_author db) found
            /\ top_of comment_order 1000
                 (Mongo.find (by_comment_issue issue_id) (comments db)) found
            /\ ((List.length (Mongo.find (by_comment_issue issue_id) (comments db))
                 <= 1000)%nat ->
                forall d, In d (comments db) ->
                  comment_issue_id (body d) = issue_id ->
                  In d found /\ In (comment_with_author db d) l).
Proof.
  intros Hnone. split; [unfold get_issue; now rewrite Hnone|].
  destruct (get_comments_top issue_id db) as [found [Hl Htop]].
  exists (List.map (comment_with_author db) found).
  split; [assumption|].
  assert (Hsub : forall d, In d found ->
            In d (comments db) /\ comment_issue_id (body d) = issue_id).
  { intros d Hd. apply (top_of_sub _ _ _ _ _ Htop) in Hd.
    unfold Mongo.find in Hd. apply filter_In in Hd. destruct Hd as [Hin Hq].
    unfold by_comment_issue, by_key in Hq. apply String.eqb_eq in Hq. now split. }
  assert (Hfind : forall d, In d (comments db) -> comment_issue_id (body d) = issue_id ->
            In d (Mongo.find (by_comment_issue issue_id) (comments db))).
  { intros d Hin Hd. unfold Mongo.find. apply filter_In. split; [assumption|].
    unfold by_comment_issue, by_key. rewrite Hd. apply String.eqb_refl. }
  split; [|split].
  - intros v Hv. apply in_map_iff in Hv. destruct Hv as [d [<- Hd]].
    exists d. destruct (Hsub d Hd). auto.
  - destruct Htop as [_ [Hlen _]]. split.
    + intros Hnil d Hin Hd. apply map_eq_nil in Hnil. subst found.
      specialize (Hfind d Hin Hd).
      destruct (Mongo.find (by_comment_issue issue_id) (comments db));
        [contradiction|]. simpl in Hlen. discriminate.
    + intros Hall. destruct found as [|d found]; [reflexivity|].
      destruct (Hsub d (or_introl eq_refl)) as [Hin Hd]. now apply Hall in Hin.
  - exists found. split; [reflexivity|]. split; [assumption|].
    intros Hk d Hin Hd.
    assert (Hf : In d found).
    { apply (Permutation_in d (Permutation_sym (top_of_all _ _ _ _ Htop Hk))).
      now apply Hfind. }
    split; [assumption|now apply in_map].
Qed.

Lemma unknown_issue_not_found_comments_listed_witness :
  Mongo.find_one (by_id_issue "invalid-id") (issues Sample.db_ghost_comment) = None
  /\ get_issue "invalid-id" Sample.db_ghost_comment = HTTPException 404 "Issue not found"
  /\ exists l,
       get_comments "invalid-id" Sample.db_ghost_comment = Return l
       /\ l = [mkCommentView (mkComment Sample.oid_a "invalid-id" "u1" "hello" 100) None]
       /\ exists found,
            l = List.map (comment_with_author Sample.db_ghost_comment) found
            /\ top_of comment_order 1000
                 (Mongo.find (by_comment_issue "invalid-id")
                    (comments Sample.db_ghost_comment)) found.
Proof.
  assert (H : Mongo.find_one (by_id_issue "invalid-id")
                (issues Sample.db_ghost_comment) = None) by reflexivity.
  split; [exact H|].
  destruct (unknown_issue_not_found_comments_listed "invalid-id"
              Sample.db_ghost_comment H)
    as [Hget [l [Hl [_ [_ [found [Hf [Htop _]]]]]]]].
  split; [exact Hget|].
  exists l. split; [exact Hl|]. split.
  - assert (Hc : get_comments "invalid-id" Sample.db_ghost_comment
                 = Return [mkCommentView
                             (mkComment Sample.oid_a "invalid-id" "u1" "hello" 100) None])
      by (vm_compute; reflexivity).
    rewrite Hl in Hc. now injection Hc.
  - exists found. split; [exact Hf|exact Htop].
Defined.

(** ** Enrichment *)


Lemma issue_with_context_no_user db d :
  no_user (issue_user_id (body d)) db -> iv_user_name (issue_with_context db d) = None.
Proof.
  intros H. unfold issue_with_context, by_id_user. cbn [iv_user_name].
  apply find_one_by_key_none in H. unfold object_id_to_str.
  cbn [set_issue_id issue_user_id]. now rewrite H.
Qed.

Lemma issue_with_context_no_category db d :
  no_category (issue_category_id (body d)) db ->
  iv_category_name (issue_with_context db d) = None
  /\ iv_category_icon (issue_with_context db d) = None.
Proof.
  intros H. unfold issue_with_context, by_id_category.
  cbn [iv_category_name iv_category_icon].
  apply find_one_by_key_none in H. unfold object_id_to_str.
  cbn [set_issue_id issue_category_id]. now rewrite H.
Qed.

Lemma comment_with_author_no_user db d :
  no_user (comment_user_id (body d)) db -> cv_user_name (comment_with_author db d) = None.
Proof.
  intros H. unfold comment_with_author, by_id_user. cbn [cv_user_name].
  apply find_one_by_key_none in H. unfold object_id_to_str.
  cbn [set_comment_id comment_user_id]. now rewrite H.
Qed.

(** The issue records in a listing do not depend on the stored users and
    categories. *)
Lemma get_issues_records lat lng radius category_id limit db us cs :
  match get_issues lat lng radius category_id limit db,
        get_issues lat lng radius category_id limit
          (mkStore us cs (issues db) (votes db) (comments db)) with
  | Return l, Return l' => List.map iv_issue l = List.map iv_issue l'
  | Uncaught e, Uncaught e' => e = e'
  | _, _ => False
  end.
Proof.
  rewrite !get_issues_unfold. cbn [issues].
  destruct (limit_accepted limit); [|reflexivity].
  rewrite !map_map. reflexivity.
Qed.

Lemma get_comments_records issue_id db us cs :
  match get_comments issue_id db,
        get_comments issue_id (mkStore us cs (issues db) (votes db) (comments db)) with
  | Return l, Return l' => List.map cv_comment l = List.map cv_comment l'
  | _, _ => False
  end.
Proof. unfold get_comments. cbn [comments]. rewrite !map_map. reflexivity. Qed.





(** * Further properties of the handlers *)

(** ** Invariants along executions *)

Lemma run_invariant (P : Store -> Prop) sha :
  (forall env req db, P db -> admissible env req db = true -> P (step sha env req db)) ->
  forall tr db, P db -> admissible_run sha tr db = true -> Forall P (run sha tr db).
Proof.
  intros Hstep tr. induction tr as [|[env req] tr IH]; intros db HP Hadm; simpl;
    [constructor|].
  simpl in Hadm. apply andb_true_iff in Hadm. destruct Hadm as [Ha Hr].
  constructor; [now apply Hstep|]. apply IH; [now apply Hstep|assumption].
Qed.

Lemma run_invariant_any (P : Store -> Prop) sha :
  (forall env req db, P db -> P (step sha env req db)) ->
  forall tr db, P db -> Forall P (run sha tr db).
Proof.
  intros Hstep tr. induction tr as [|[env req] tr IH]; intros db HP; simpl;
    [constructor|].
  constructor; [now apply Hstep|]. apply IH. now apply Hstep.
Qed.

Lemma users_create_issue env issue_data user_id db :
  users (snd (create_issue env issue_data user_id db)) = users db
  /\ categories (snd (create_issue env issue_data user_id db)) = categories db
  /\ votes (snd (create_issue env issue_data user_id db)) = votes db
  /\ comments (snd (create_issue env issue_data user_id db)) = comments db.
Proof.
  unfold create_issue.
  match goal with |- context [match ?t with Return _ => _ | _ => _ end] =>
    destruct t as [tr|c d|e]; cbn [snd]; repeat split end.
Qed.

Lemma users_vote_issue env issue_id user_id db :
  users (snd (vote_issue env issue_id user_id db)) = users db
  /\ categories (snd (vote_issue env issue_id user_id db)) = categories db
  /\ comments (snd (vote_issue env issue_id user_id db)) = comments db.
Proof.
  unfold vote_issue.
  destruct (Mongo.find_one (by_issue_and_user issue_id user_id) (votes db));
    cbn [snd]; repeat split.
Qed.

Lemma find_one_none_all {A : Type} (q : Doc A -> bool) (c : Collection A) :
  (forall d, In d c -> q d = false) -> Mongo.find_one q c = None.
Proof.
  induction c as [|x c IH]; intros H; [reflexivity|].
  simpl. rewrite (H x (or_introl eq_refl)). apply IH. intros d Hd. apply H. now right.
Qed.

Lemma NoDup_snoc_any {A : Type} (l : list A) a : NoDup l -> ~ In a l -> NoDup (l ++ [a]).
Proof.
  intros Hl Ha. apply NoDup_app; [assumption|constructor; [intros []|constructor]|].
  intros x Hx [<-|[]]. contradiction.
Qed.

Lemma step_emails sha env req db :
  NoDup (emails db) -> NoDup (emails (step sha env req db)).
Proof.
  intros H. unfold emails in *. destruct req; simpl; try assumption.
  - unfold register_user.
    destruct (Mongo.find_one (by_email (uc_email user_data)) (users db)) eqn:E;
      cbn [snd]; [assumption|].
    cbn [users set_users]. rewrite ids_of_insert_one. cbn [user_email].
    apply NoDup_snoc_any; [assumption|].
    unfold by_email in E.
    pose proof (proj2 (find_one_by_key_none user_email _ _) E) as Hnone.
    clear E. rename Hnone into E.
    intros Hin. unfold ids_of in Hin. apply in_map_iff in Hin.
    destruct Hin as [d [Hd Hin]]. exact (E d Hin Hd).
  - destruct (users_create_issue env issue_data user_id db) as [-> _]. assumption.
  - destruct (users_vote_issue env issue_id user_id db) as [-> _]. assumption.
Qed.

(** X1.  No two stored users share an email, after any sequence of requests
    from the empty store. *)
Theorem emails_stay_unique sha tr :
  Forall (fun db => NoDup (emails db)) (run sha tr empty_store).
Proof.
  apply run_invariant_any; [intros env req db; apply step_emails|constructor].
Qed.

Lemma step_category_rows sha env req db :
  category_rows (step sha env req db) = category_rows db
  \/ category_rows (step sha env req db) = default_rows.
Proof.
  destruct req; simpl; try (now left).
  - left. unfold register_user.
    now destruct (Mongo.find_one (by_email (uc_email user_data)) (users db)).
  - right. apply init_categories_rows.
  - left. unfold category_rows.
    now destruct (users_create_issue env issue_data user_id db) as [_ [-> _]].
  - left. unfold category_rows.
    now destruct (users_vote_issue env issue_id user_id db) as [_ [-> _]].
Qed.

(** X2.  After any sequence of requests from the empty store the categories
    are either none or exactly the seven default rows (name, description,
    icon) in their fixed order. *)
Theorem categories_empty_or_default sha tr :
  Forall (fun db => category_rows db = [] \/ category_rows db = default_rows)
    (run sha tr empty_store).
Proof.
  apply run_invariant_any; [|now left].
  intros env req db H.
  destruct (step_category_rows sha env req db) as [-> | ->]; [assumption|now right].
Qed.

(** ** What no request deletes or rewrites *)

Lemma without_vote_count_update_one q n (c : Collection Issue) :
  List.map without_vote_count (Mongo.update_one q (inc_vote_count n) c)
  = List.map without_vote_count c.
Proof.
  induction c as [|x c IH]; [reflexivity|].
  simpl. destruct (q x); simpl; [|now rewrite IH].
  f_equal. unfold without_vote_count, inc_vote_count. cbn. f_equal. f_equal. lia.
Qed.

(** X3.  Whatever the request, the stored users, issues and comments are kept
    in place and new ones are only appended; of a stored issue nothing but
    [vote_count] changes. *)
Theorem requests_only_append sha env req db :
  (exists l, users (step sha env req db) = users db ++ l)
  /\ (exists l, comments (step sha env req db) = comments db ++ l)
  /\ (exists l, List.map without_vote_count (issues (step sha env req db))
                = List.map without_vote_count (issues db) ++ l).
Proof.
  destruct req; simpl;
    try (repeat split; exists []; now rewrite app_nil_r).
  - unfold register_user.
    destruct (Mongo.find_one (by_email (uc_email user_data)) (users db));
      cbn [snd users comments issues set_users];
      repeat split; try (exists []; now rewrite app_nil_r).
    eexists. reflexivity.
  - unfold create_issue.
    match goal with |- context [match ?t with Return _ => _ | _ => _ end] =>
      destruct t as [tr|c d|e]; cbn [snd users comments issues set_issues];
        repeat split; try (exists []; now rewrite app_nil_r) end.
    unfold Mongo.insert_one. rewrite map_app. eexists. reflexivity.
  - unfold vote_issue.
    destruct (Mongo.find_one (by_issue_and_user issue_id user_id) (votes db));
      cbn [snd users comments issues];
      repeat split; try (exists []; now rewrite app_nil_r);
      exists []; now rewrite without_vote_count_update_one, app_nil_r.
  - unfold add_comment. cbn [snd users comments issues set_comments].
    repeat split; try (exists []; now rewrite app_nil_r).
    eexists. reflexivity.
Qed.

(** ** Votes *)

Lemma find_one_pair_none issue_id user_id db :
  Mongo.find_one (by_issue_and_user issue_id user_id) (votes db) = None ->
  ~ In (issue_id, user_id) (vote_pairs db).
Proof.
  intros E Hin. unfold vote_pairs in Hin. apply in_map_iff in Hin.
  destruct Hin as [d [Hd Hin]]. injection Hd as Hi Hu.
  pose proof (find_one_none _ _ E d Hin) as Hq.
  unfold by_issue_and_user, by_key in Hq.
  rewrite Hi, Hu, !String.eqb_refl in Hq. discriminate.
Qed.

Lemma vote_issue_pairs env issue_id user_id db :
  NoDup (ids_of vote_id_ (votes db)) ->
  NoDup (vote_pairs db) ->
  NoDup (vote_pairs (snd (vote_issue env issue_id user_id db))).
Proof.
  intros Hids Hpairs. unfold vote_issue.
  destruct (Mongo.find_one (by_issue_and_user issue_id user_id) (votes db))
    as [ev|] eqn:E; cbn [snd].
  - apply find_one_in in E. destruct E as [Hin _].
    destruct (delete_one_unique vote_id_ (votes db) ev Hids Hin)
      as [l1 [l2 [Hsplit Hdel]]].
    unfold vote_pairs in *. cbn [votes]. unfold by_id_vote. rewrite Hdel.
    rewrite Hsplit, map_app in Hpairs. simpl in Hpairs.
    rewrite map_app. now apply NoDup_remove_1 in Hpairs.
  - apply find_one_pair_none in E.
    unfold vote_pairs in *. cbn [votes]. unfold Mongo.insert_one.
    rewrite map_app. cbn [map body vote_issue_id vote_user_id].
    now apply NoDup_snoc_any.
Qed.

Lemma step_vote_pairs sha env req db :
  well_formed db /\ NoDup (vote_pairs db) ->
  admissible env req db = true ->
  well_formed (step sha env req db) /\ NoDup (vote_pairs (step sha env req db)).
Proof.
  intros [Hwf Hp] Hadm. split; [now apply step_well_formed|].
  destruct req; simpl; try assumption.
  - unfold register_user.
    now destruct (Mongo.find_one (by_email (uc_email user_data)) (users db)).
  - unfold vote_pairs.
    now destruct (users_create_issue env issue_data user_id db) as [_ [_ [-> _]]].
  - apply vote_issue_pairs; [apply (wf_vote_ids db Hwf)|assumption].
Qed.

(** X4.  Along every execution from the empty store (with fresh uuids) there
    is at most one stored vote per pair of issue id and user id. *)
Theorem one_vote_per_pair sha tr :
  admissible_run sha tr empty_store = true ->
  Forall (fun db => NoDup (vote_pairs db)) (run sha tr empty_store).
Proof.
  intros Hadm.
  apply Forall_impl with (P := fun db => well_formed db /\ NoDup (vote_pairs db));
    [tauto|].
  apply run_invariant; [apply step_vote_pairs| |assumption].
  split; [apply well_formed_empty|constructor].
Qed.

Lemma one_vote_per_pair_witness :
  admissible_run Sample.sha Sample.trace empty_store = true
  /\ Forall (fun db => NoDup (vote_pairs db)) (run Sample.sha Sample.trace empty_store).
Proof.
  split; [vm_compute; reflexivity|].
  apply one_vote_per_pair. vm_compute. reflexivity.
Defined.

(** X5.  Along every execution from the empty store (with fresh uuids) no
    counter is negative and none exceeds the number of stored votes. *)
Theorem vote_count_bounds sha tr :
  admissible_run sha tr empty_store = true ->
  Forall (fun db => forall d, In d (issues db) ->
            0 <= issue_vote_count (body d) <= Z.of_nat (List.length (votes db)))
    (run sha tr empty_store).
Proof.
  intros Hadm.
  apply Forall_impl with (P := well_formed).
  - intros db Hwf d Hd. rewrite (wf_counts db Hwf d Hd).
    unfold votes_for, Mongo.find.
    pose proof (filter_length_le (by_key vote_issue_id (issue_id_ (body d))) (votes db)).
    lia.
  - apply run_well_formed; [apply well_formed_empty|assumption].
Qed.

Lemma vote_count_bounds_witness :
  admissible_run Sample.sha Sample.trace empty_store = true
  /\ Forall (fun db => forall d, In d (issues db) ->
               0 <= issue_vote_count (body d) <= Z.of_nat (List.length (votes db)))
       (run Sample.sha Sample.trace empty_store).
Proof.
  split; [vm_compute; reflexivity|].
  apply vote_count_bounds. vm_compute. reflexivity.
Defined.

Lemma update_one_no_match {A : Type} (q : Doc A -> bool) (f : A -> A) (c : Collection A) :
  Mongo.find_one q c = None -> Mongo.update_one q f c = c.
Proof.
  induction c as [|x c IH]; [reflexivity|].
  simpl. destruct (q x); [discriminate|]. intros H. now rewrite IH.
Qed.

(** X6.  A vote cast on an id that no stored issue carries is accepted: the
    answer is [voted = true], a vote row is stored, and no issue changes. *)
Theorem vote_on_unknown_issue env issue_id user_id db :
  Mongo.find_one (by_id_issue issue_id) (issues db) = None ->
  Mongo.find_one (by_issue_and_user issue_id user_id) (votes db) = None ->
  voted_flag (fst (vote_issue env issue_id user_id db)) = Some true
  /\ issues (snd (vote_issue env issue_id user_id db)) = issues db
  /\ votes_for issue_id (votes (snd (vote_issue env issue_id user_id db)))
     = S (votes_for issue_id (votes db)).
Proof.
  intros Hi Hv. unfold vote_issue. rewrite Hv.
  cbn [fst snd voted_flag payload issues votes].
  split; [reflexivity|]. split; [now apply update_one_no_match|].
  rewrite votes_for_insert_one. cbn [vote_issue_id].
  rewrite String.eqb_refl. lia.
Qed.

Lemma vote_on_unknown_issue_witness :
  Mongo.find_one (by_id_issue "invalid-id") (issues Sample.db_one_issue) = None
  /\ voted_flag (fst (vote_issue Sample.env_b "invalid-id" "u1" Sample.db_one_issue))
     = Some true
  /\ issues (snd (vote_issue Sample.env_b "invalid-id" "u1" Sample.db_one_issue))
     = issues Sample.db_one_issue.
Proof.
  split; [reflexivity|].
  destruct (vote_on_unknown_issue Sample.env_b "invalid-id" "u1" Sample.db_one_issue
              eq_refl eq_refl) as [H1 [H2 _]].
  split; [exact H1|exact H2].
Defined.

(** ** Identifier formats in the store *)

Lemma admissible_draws env req db k :
  admissible env req db = true -> (k < draws req)%nat ->
  is_uuid_str (uuid4 env k) = true /\ is_object_id_str (new_object_id env k) = true.
Proof.
  unfold admissible. rewrite !andb_true_iff. intros [[[_ _] Hu] Ho] Hk.
  rewrite forallb_forall in Hu, Ho.
  assert (Hin : In k (List.seq 0 (draws req))) by (apply in_seq; lia).
  split; [apply Hu; now apply in_map|now apply Ho].
Qed.

Lemma Forall_delete_one {A B : Type} (P : B -> Prop) (f : Doc A -> B) q (c : Collection A) :
  Forall P (List.map f c) -> Forall P (List.map f (Mongo.delete_one q c)).
Proof.
  induction c as [|x c IH]; intros H; [constructor|].
  simpl in *. inversion H; subst. destruct (q x); [assumption|].
  simpl. constructor; [assumption|now apply IH].
Qed.

Lemma object_ids_update_one {A : Type} q (f : A -> A) (c : Collection A) :
  object_ids (Mongo.update_one q f c) = object_ids c.
Proof.
  unfold object_ids. induction c as [|x c IH]; [reflexivity|].
  simpl. destruct (q x); simpl; [reflexivity|now rewrite IH].
Qed.

Lemma object_ids_insert_one {A : Type} oid (a : A) (c : Collection A) :
  object_ids (Mongo.insert_one oid a c) = object_ids c ++ [oid].
Proof. unfold object_ids, Mongo.insert_one. now rewrite map_app. Qed.

Lemma Forall_snoc {A : Type} (P : A -> Prop) l a : Forall P l -> P a -> Forall P (l ++ [a]).
Proof. intros Hl Ha. apply Forall_app. split; [assumption|now constructor]. Qed.

Lemma insert_categories_shaped env l : forall k c,
  (forall j, (j < List.length l)%nat ->
     is_uuid_str (uuid4 env (k + j)) = true
     /\ is_object_id_str (new_object_id env (k + j)) = true) ->
  Forall (fun s => is_uuid_str s = true) (ids_of category_id_ c) ->
  Forall (fun s => is_object_id_str s = true) (object_ids c) ->
  Forall (fun s => is_uuid_str s = true)
    (ids_of category_id_ (insert_categories env k l c))
  /\ Forall (fun s => is_object_id_str s = true)
       (object_ids (insert_categories env k l c)).
Proof.
  induction l as [|[[n d] i] l IH]; intros k c Hk Hu Ho; simpl; [now split|].
  destruct (Hk 0%nat) as [Hu0 Ho0]; [simpl; lia|]. rewrite Nat.add_0_r in Hu0, Ho0.
  apply IH.
  - intros j Hj. replace (S k + j)%nat with (k + S j)%nat by lia.
    apply Hk. simpl. lia.
  - rewrite ids_of_insert_one. now apply Forall_snoc.
  - rewrite object_ids_insert_one. now apply Forall_snoc.
Qed.

Lemma shaped_empty : shaped empty_store.
Proof. constructor; constructor. Qed.

Lemma step_shaped sha env req db :
  shaped db -> admissible env req db = true -> shaped (step sha env req db).
Proof.
  intros [U C I V K UO CO IO VO KO] Hadm.
  destruct req; simpl; try (now constructor).
  - destruct (admissible_draws env _ db 0%nat Hadm) as [Hu Ho]; [simpl; lia|].
    unfold register_user.
    destruct (Mongo.find_one (by_email (uc_email user_data)) (users db));
      cbn [snd]; constructor; cbn [users categories issues votes comments set_users];
      try assumption.
    + rewrite ids_of_insert_one. now apply Forall_snoc.
    + rewrite object_ids_insert_one. now apply Forall_snoc.
  - unfold init_categories. cbn [snd].
    destruct (insert_categories_shaped env default_categories 0
                (Mongo.delete_many (fun _ => true) (categories db))) as [Hu Ho].
    + intros j Hj. apply (admissible_draws env InitCategories db); assumption.
    + rewrite delete_many_all. constructor.
    + rewrite delete_many_all. constructor.
    + constructor; cbn [users categories issues votes comments set_categories];
        assumption.
  - destruct (admissible_draws env _ db 0%nat Hadm) as [Hu Ho]; [simpl; lia|].
    unfold create_issue.
    match goal with |- context [match ?t with Return _ => _ | _ => _ end] =>
      destruct t as [tr|c d|e]; cbn [snd]; try (now constructor) end.
    constructor; cbn [users categories issues votes comments set_issues];
      try assumption.
    + rewrite ids_of_insert_one. now apply Forall_snoc.
    + rewrite object_ids_insert_one. now apply Forall_snoc.
  - destruct (admissible_draws env _ db 0%nat Hadm) as [Hu Ho]; [simpl; lia|].
    unfold vote_issue.
    destruct (Mongo.find_one (by_issue_and_user issue_id user_id) (votes db));
      cbn [snd]; constructor; cbn [users categories issues votes comments];
      try assumption;
      try (unfold by_id_issue; now rewrite (update_one_keys issue_id_));
      try (now rewrite object_ids_update_one).
    + now apply Forall_delete_one.
    + now apply Forall_delete_one.
    + rewrite ids_of_insert_one. now apply Forall_snoc.
    + rewrite object_ids_insert_one. now apply Forall_snoc.
  - destruct (admissible_draws env _ db 0%nat Hadm) as [Hu Ho]; [simpl; lia|].
    unfold add_comment. cbn [snd].
    constructor; cbn [users categories issues votes comments set_comments];
      try assumption.
    + rewrite ids_of_insert_one. now apply Forall_snoc.
    + rewrite object_ids_insert_one. now apply Forall_snoc.
Qed.

Lemma run_shaped sha tr :
  admissible_run sha tr empty_store = true ->
  Forall shaped (run sha tr empty_store).
Proof.
  intros H. apply run_invariant; [apply step_shaped|apply shaped_empty|assumption].
Qed.

Lemma find_one_key_object_id_none {A : Type} (key : A -> string) oid (c : Collection A) :
  is_object_id_str oid = true ->
  Forall (fun s => is_uuid_str s = true) (ids_of key c) ->
  Mongo.find_one (by_key key oid) c = None.
Proof.
  intros Hoid Hall. apply find_one_by_key_none. intros d Hd Hk.
  unfold ids_of in Hall. rewrite Forall_forall in Hall.
  apply (uuid_is_not_object_id oid); [|assumption].
  apply Hall. apply in_map_iff. exists d. now split.
Qed.

Lemma Forall_object_id {A : Type} (c : Collection A) d :
  Forall (fun s => is_object_id_str s = true) (object_ids c) -> In d c ->
  is_object_id_str (_id d) = true.
Proof.
  intros H Hd. unfold object_ids in H. rewrite Forall_forall in H.
  apply H. now apply in_map.
Qed.

(** ** Identifiers the API hands out *)




(** X8.  In every store reached from the empty one, a vote addressed to an
    issue by the [id] the API reports for it (the text of its [_id]) changes
    no issue: no counter moves. *)
Theorem vote_by_reported_id_counts_nothing sha tr :
  admissible_run sha tr empty_store = true ->
  Forall (fun db => forall env d user_id,
            In d (issues db) ->
            issues (snd (vote_issue env (_id d) user_id db)) = issues db)
    (run sha tr empty_store).
Proof.
  intros Hadm. apply Forall_impl with (P := shaped); [|now apply run_shaped].
  intros db Hsh env d user_id Hd.
  assert (Hnone : Mongo.find_one (by_id_issue (_id d)) (issues db) = None).
  { unfold by_id_issue. apply find_one_key_object_id_none; [|apply Hsh].
    apply (Forall_object_id (issues db)); [apply Hsh|assumption]. }
  unfold vote_issue.
  destruct (Mongo.find_one (by_issue_and_user (_id d) user_id) (votes db));
    cbn [snd issues]; now apply update_one_no_match.
Qed.

Lemma vote_by_reported_id_counts_nothing_witness :
  admissible_run Sample.sha Scenario.api_trace empty_store = true
  /\ List.map (fun d => (_id d, issue_vote_count (body d))) (issues Scenario.db_api)
     = [(Sample.oid_b, 1)]
  /\ List.length (votes Scenario.db_api) = 2%nat
  /\ issues (snd (vote_issue Sample.env_e Sample.oid_b "u9"%string Scenario.db_api))
     = issues Scenario.db_api.
Proof.
  assert (Hadm : admissible_run Sample.sha Scenario.api_trace empty_store = true)
    by (vm_compute; reflexivity).
  split; [exact Hadm|]. split; [vm_compute; reflexivity|].
  split; [vm_compute; reflexivity|].
  pose proof (vote_by_reported_id_counts_nothing Sample.sha Scenario.api_trace Hadm)
    as Hall.
  rewrite Forall_forall in Hall.
  assert (Hin : In Scenario.db_api (run Sample.sha Scenario.api_trace empty_store)).
  { vm_compute. do 5 right. left. reflexivity. }
  apply (Hall _ Hin Sample.env_e
           (mkDoc Sample.oid_b
              (mkIssue Sample.uuid_b Sample.oid_a "roads" "Pothole on Main Street"
                 "Large pothole near the intersection" None None None
                 40.7128%float (-74.0060)%float (Some "123 Main Street"%string)
                 "pending" None None 1 200 200)) "u9"%string).
  vm_compute. left. reflexivity.
Defined.

(** X9.  In every store reached from the empty one, an issue or comment whose
    [user_id] is the id the API reports for a stored user (the text of the
    user's [_id], as [register_user] and [login_user] return it) gets no
    [user_name], and an issue whose [category_id] is the id [get_categories]
    reports for a stored category gets neither [category_name] nor
    [category_icon]. *)
Theorem reported_ids_never_enrich sha tr :
  admissible_run sha tr empty_store = true ->
  Forall (fun db =>
            (forall d u, In u (users db) -> issue_user_id (body d) = _id u ->
               iv_user_name (issue_with_context db d) = None)
            /\ (forall d c, In c (categories db) -> issue_category_id (body d) = _id c ->
                  iv_category_name (issue_with_context db d) = None
                  /\ iv_category_icon (issue_with_context db d) = None)
            /\ (forall d u, In u (users db) -> comment_user_id (body d) = _id u ->
                  cv_user_name (comment_with_author db d) = None))
    (run sha tr empty_store).
Proof.
  intros Hadm. apply Forall_impl with (P := shaped); [|now apply run_shaped].
  intros db Hsh.
  assert (Hu : forall u, In u (users db) -> no_user (_id u) db).
  { intros u Hin. unfold no_user.
    apply (proj2 (find_one_by_key_none user_id_ (_id u) (users db))).
    apply find_one_key_object_id_none; [|apply Hsh].
    apply (Forall_object_id (users db)); [apply Hsh|assumption]. }
  split; [|split].
  - intros d u Hin Heq. apply issue_with_context_no_user. rewrite Heq. now apply Hu.
  - intros d c Hin Heq. apply issue_with_context_no_category. rewrite Heq.
    unfold no_category.
    apply (proj2 (find_one_by_key_none category_id_ (_id c) (categories db))).
    apply find_one_key_object_id_none; [|apply Hsh].
    apply (Forall_object_id (categories db)); [apply Hsh|assumption].
  - intros d u Hin Heq. apply comment_with_author_no_user. rewrite Heq. now apply Hu.
Qed.

Lemma reported_ids_never_enrich_witness :
  admissible_run Sample.sha Scenario.api_trace empty_store = true
  /\ List.map (fun u => (_id u, user_name (body u))) (users Scenario.db_api)
     = [(Sample.oid_a, "Alice"%string)]
  /\ List.map (fun d => issue_user_id (body d)) (issues Scenario.db_api) = [Sample.oid_a]
  /\ List.map (fun d => iv_user_name (issue_with_context Scenario.db_api d))
       (issues Scenario.db_api) = [None].
Proof.
  assert (Hadm : admissible_run Sample.sha Scenario.api_trace empty_store = true)
    by (vm_compute; reflexivity).
  split; [exact Hadm|]. split; [vm_compute; reflexivity|].
  split; [vm_compute; reflexivity|].
  pose proof (reported_ids_never_enrich Sample.sha Scenario.api_trace Hadm) as Hall.
  rewrite Forall_forall in Hall.
  assert (Hin : In Scenario.db_api (run Sample.sha Scenario.api_trace empty_store)).
  { vm_compute. do 5 right. left. reflexivity. }
  destruct (Hall _ Hin) as [Huser _].
  set (d0 := mkDoc Sample.oid_b
               (mkIssue Sample.uuid_b Sample.oid_a "roads" "Pothole on Main Street"
                  "Large pothole near the intersection" None None None
                  40.7128%float (-74.0060)%float (Some "123 Main Street"%string)
                  "pending" None None 1 200 200)).
  set (u0 := mkDoc Sample.oid_a
               (mkUser Sample.uuid_a "Alice" "alice@example.org"
                  (Sample.sha "secret") None "citizen" 100)).
  assert (Hd : issues Scenario.db_api = [d0]) by (vm_compute; reflexivity).
  assert (Hu : In u0 (users Scenario.db_api)) by (vm_compute; left; reflexivity).
  rewrite Hd. cbn [List.map].
  rewrite (Huser d0 u0 Hu eq_refl). reflexivity.
Defined.

(** ** Registration and login *)

Lemma login_after_register_find sha env user_data db password :
  ~ email_taken (uc_email user_data) db ->
  Mongo.find_one (by_email_and_hash (uc_email user_data) (sha password))
    (users (snd (register_user sha env user_data db)))
  = if String.eqb (sha (uc_password user_data)) (sha password)
    then Some (mkDoc (new_object_id env 0)
                 (mkUser (uuid4 env 0) (uc_name user_data) (uc_email user_data)
                    (sha (uc_password user_data)) (uc_phone user_data) "citizen"
                    (utcnow env 0)))
    else None.
Proof.
  intros Hfree. unfold register_user, by_email.
  assert (Hnone : forall d, In d (users db) -> user_email (body d) <> uc_email user_data).
  { intros d Hd He. apply Hfree. now exists d. }
  rewrite (proj1 (find_one_by_key_none user_email _ _) Hnone).
  cbn [snd users set_users]. rewrite find_one_insert_one.
  rewrite find_one_none_all.
  - unfold by_email_and_hash, by_key. cbn [body user_email user_password_hash].
    now rewrite String.eqb_refl.
  - intros d Hd. unfold by_email_and_hash, by_key.
    destruct (String.eqb_spec (user_email (body d)) (uc_email user_data)) as [E|_];
      [now apply Hnone in Hd|reflexivity].
Qed.

(** X10.  After a registration with an email that was free, logging in with
    the same email and password returns, and the user in the answer is the
    user [register_user] answered with in every field but the time stamp:
    same [id] (the text of the inserted [_id]), name, email, hash, phone and
    role. *)
Theorem login_after_register sha env user_data db :
  ~ email_taken (uc_email user_data) db ->
  exists r u,
    fst (register_user sha env user_data db) = Return r
    /\ login_user sha (mkUserLogin (uc_email user_data) (uc_password user_data))
         (snd (register_user sha env user_data db))
       = Return (mkResponse true u "Login successful")
    /\ user_without_time u = user_without_time (payload r)
    /\ user_id_ u = new_object_id env 0
    /\ user_name u = uc_name user_data
    /\ user_email u = uc_email user_data
    /\ user_password_hash u = sha (uc_password user_data).
Proof.
  intros Hfree. unfold login_user. cbn [ul_email ul_password].
  rewrite (login_after_register_find sha env user_data db _ Hfree).
  rewrite String.eqb_refl. unfold register_user, by_email.
  assert (Hnone : forall d, In d (users db) -> user_email (body d) <> uc_email user_data).
  { intros d Hd He. apply Hfree. now exists d. }
  rewrite (proj1 (find_one_by_key_none user_email _ _) Hnone).
  cbn [fst]. do 2 eexists. split; [reflexivity|]. split; [reflexivity|].
  repeat split.
Qed.

Lemma login_after_register_witness :
  ~ email_taken "alice@example.org" empty_store
  /\ exists r u,
       fst (register_user Sample.sha Sample.env_a Sample.alice empty_store) = Return r
       /\ login_user Sample.sha (mkUserLogin "alice@example.org" "secret")
            Scenario.db_alice
          = Return (mkResponse true u "Login successful")
       /\ user_without_time u = user_without_time (payload r)
       /\ user_id_ u = Sample.oid_a
       /\ user_name u = "Alice"%string
       /\ user_email u = "alice@example.org"%string
       /\ user_password_hash u = "sha256:secret"%string.
Proof.
  assert (H : ~ email_taken (uc_email Sample.alice) empty_store)
    by (intros [d [[] _]]).
  split; [exact H|].
  exact (login_after_register Sample.sha Sample.env_a Sample.alice empty_store H).
Defined.

(** X11.  After a registration with an email that was free, a login with that
    email and a password whose hash differs from the registered one raises
    401 "Invalid credentials". *)
Theorem login_wrong_password sha env user_data db password :
  ~ email_taken (uc_email user_data) db ->
  sha password <> sha (uc_password user_data) ->
  login_user sha (mkUserLogin (uc_email user_data) password)
    (snd (register_user sha env user_data db))
  = HTTPException 401 "Invalid credentials".
Proof.
  intros Hfree Hne. unfold login_user. cbn [ul_email ul_password].
  rewrite (login_after_register_find sha env user_data db _ Hfree).
  destruct (String.eqb_spec (sha (uc_password user_data)) (sha password)) as [E|_];
    [now elim Hne|reflexivity].
Qed.

Lemma login_wrong_password_witness :
  ~ email_taken "alice@example.org" empty_store
  /\ Sample.sha "guess" <> Sample.sha "secret"
  /\ login_user Sample.sha (mkUserLogin "alice@example.org" "guess") Scenario.db_alice
     = HTTPException 401 "Invalid credentials".
Proof.
  assert (H : ~ email_taken (uc_email Sample.alice) empty_store)
    by (intros [d [[] _]]).
  assert (Hne : Sample.sha "guess" <> Sample.sha (uc_password Sample.alice))
    by discriminate.
  split; [exact H|]. split; [exact Hne|].
  exact (login_wrong_password Sample.sha Sample.env_a Sample.alice empty_store
           "guess" H Hne).
Defined.

(** X12.  [login_user] never answers for an email that no stored user has. *)
Theorem login_unknown_email sha login_data db :
  ~ email_taken (ul_email login_data) db ->
  login_user sha login_data db = HTTPException 401 "Invalid credentials".
Proof.
  intros Hfree. unfold login_user. rewrite find_one_none_all; [reflexivity|].
  intros d Hd. unfold by_email_and_hash, by_key.
  destruct (String.eqb_spec (user_email (body d)) (ul_email login_data)) as [E|_];
    [|reflexivity].
  elim Hfree. now exists d.
Qed.

Lemma login_unknown_email_witness :
  ~ email_taken "bob@example.org" Scenario.db_alice
  /\ login_user Sample.sha (mkUserLogin "bob@example.org" "secret") Scenario.db_alice
     = HTTPException 401 "Invalid credentials".
Proof.
  assert (H : ~ email_taken (ul_email (mkUserLogin "bob@example.org" "secret"))
                Scenario.db_alice).
  { intros [d [Hin He]]. vm_compute in Hin. destruct Hin as [<-|[]]. discriminate. }
  split; [exact H|].
  exact (login_unknown_email Sample.sha (mkUserLogin "bob@example.org" "secret")
           Scenario.db_alice H).
Defined.

(** ** Categories as they are listed *)

(** X13.  Right after [init_categories], [get_categories] lists exactly the
    seven default categories in their fixed order, each under the text of
    the [_id] the driver generated for it (not the uuid it is stored with). *)
Theorem get_categories_after_init env db :
  get_categories (snd (init_categories env db))
  = Return (List.map
              (fun '(k, (n, d, i)) => mkCategory (new_object_id env k) n d (Some i))
              (List.combine (List.seq 0 7) default_categories)).
Proof.
  unfold get_categories, init_categories. cbn [snd categories set_categories].
  rewrite delete_many_all. reflexivity.
Qed.

(** ** Comments *)

Lemma comment_before_desc a b :
  comment_before a b = true <-> comment_desc (body a) (body b).
Proof. unfold comment_before, comment_desc. apply Z.leb_le. Qed.

(** X14.  [get_comments] answers with at most 1000 rows, all filed under the
    requested issue id, sorted by [created_at] descending. *)
Theorem get_comments_sorted_capped issue_id db :
  exists l,
    get_comments issue_id db = Return l
    /\ (List.length l <= 1000)%nat
    /\ (forall v, In v l -> comment_issue_id (cv_comment v) = issue_id)
    /\ StronglySorted comment_desc (List.map cv_comment l).
Proof.
  destruct (get_comments_length issue_id db) as [l [Hl Hlen]].
  exists l. split; [assumption|]. split; [lia|]. split.
  - intros v Hv. destruct (get_comments_rows issue_id db v) as [d [_ [Hd ->]]];
      [now rewrite Hl|].
    exact Hd.
  - unfold get_comments in Hl. injection Hl as <-.
    rewrite map_map. unfold Mongo.to_list.
    apply map_strongly with (R := fun a b => comment_before a b = true).
    + intros a b H. now apply comment_before_desc in H.
    + apply firstn_strongly.
      apply sort_strongly; [apply comment_before_total|apply comment_before_trans].
Qed.

(** A document that is strictly newer than all others sorts first. *)
Lemma sort_newest_first (c : Collection Comment) d :
  (forall x, In x c -> comment_created_at (body x) < comment_created_at (body d)) ->
  Mongo.sort comment_before (c ++ [d]) = d :: Mongo.sort comment_before c.
Proof.
  unfold Mongo.sort. induction c as [|x c IH]; intros H; [reflexivity|].
  simpl. rewrite IH by (intros y Hy; apply H; now right).
  simpl. unfold comment_before at 1.
  specialize (H x (or_introl eq_refl)).
  destruct (Z.leb_spec (comment_created_at (body d)) (comment_created_at (body x)));
    [lia|reflexivity].
Qed.

Lemma find_comments_insert issue_id oid c (l : Collection Comment) :
  comment_issue_id c = issue_id ->
  Mongo.find (by_comment_issue issue_id) (Mongo.insert_one oid c l)
  = Mongo.find (by_comment_issue issue_id) l ++ [mkDoc oid c].
Proof.
  intros H. unfold Mongo.find, Mongo.insert_one. rewrite filter_app. simpl.
  unfold by_comment_issue at 2. unfold by_key. cbn [body].
  now rewrite H, String.eqb_refl.
Qed.

(** X15.  A comment added to an issue that has fewer than 1000 comments is
    listed afterwards: the listing for that issue id has one row more, and
    one of its rows is the new comment, equal to the comment in the payload
    of [add_comment] in every field but the time stamp (same [id], the text
    of its [_id], same issue id, user id and message). *)
Theorem added_comment_is_listed env issue_id comment_data user_id db :
  (List.length (Mongo.find (by_comment_issue issue_id) (comments db)) < 1000)%nat ->
  exists r l0 l,
    fst (add_comment env issue_id comment_data user_id db) = Return r
    /\ get_comments issue_id db = Return l0
    /\ get_comments issue_id (snd (add_comment env issue_id comment_data user_id db))
       = Return l
    /\ List.length l = S (List.length l0)
    /\ exists v, In v l
                 /\ comment_without_time (cv_comment v) = comment_without_time (payload r)
                 /\ comment_id_ (cv_comment v) = new_object_id env 0
                 /\ comment_message (cv_comment v) = cc_message comment_data
                 /\ comment_user_id (cv_comment v) = user_id
                 /\ comment_issue_id (cv_comment v) = issue_id.
Proof.
  intros Hlt. unfold add_comment. cbn [fst snd].
  destruct (get_comments_length issue_id db) as [l0 [Hl0 Hlen0]].
  eexists. exists l0. eexists. split; [reflexivity|]. split; [assumption|].
  split; [reflexivity|].
  set (c := mkComment (uuid4 env 0) issue_id user_id (cc_message comment_data)
              (utcnow env 0)).
  cbn [comments set_comments]. rewrite (find_comments_insert issue_id _ c) by reflexivity.
  unfold Mongo.to_list.
  assert (Hall : List.firstn (Z.to_nat 1000)
                   (Mongo.sort comment_before
                      (Mongo.find (by_comment_issue issue_id) (comments db)
                       ++ [mkDoc (new_object_id env 0) c]))
                 = Mongo.sort comment_before
                     (Mongo.find (by_comment_issue issue_id) (comments db)
                      ++ [mkDoc (new_object_id env 0) c])).
  { apply firstn_all2.
    rewrite (Permutation_length (sort_perm comment_before _)), length_app.
    simpl. lia. }
  rewrite Hall. split.
  - rewrite length_map, (Permutation_length (sort_perm comment_before _)), length_app.
    simpl. rewrite Hlen0. lia.
  - exists (comment_with_author
              (set_comments db
                 (Mongo.insert_one (new_object_id env 0) c (comments db)))
              (mkDoc (new_object_id env 0) c)).
    split; [|repeat split].
    apply in_map.
    apply (Permutation_in _ (Permutation_sym (sort_perm comment_before _))).
    apply in_or_app. right. now left.
Qed.

Example added_comment_listing :
  get_comments Sample.uuid_a Scenario.db_commented
  = Return [mkCommentView
              (mkComment Sample.oid_b Sample.uuid_a "u1" "hello" 200) None].
Proof. vm_compute. reflexivity. Qed.

Lemma added_comment_is_listed_witness :
  (List.length (Mongo.find (by_comment_issue Sample.uuid_a) (comments Sample.db_one_issue))
   < 1000)%nat
  /\ exists r l0 l,
       fst (add_comment Sample.env_b Sample.uuid_a Scenario.hello "u1" Sample.db_one_issue)
       = Return r
       /\ get_comments Sample.uuid_a Sample.db_one_issue = Return l0
       /\ get_comments Sample.uuid_a Scenario.db_commented = Return l
       /\ List.length l = S (List.length l0)
       /\ exists v, In v l
                    /\ comment_without_time (cv_comment v)
                       = comment_without_time (payload r)
                    /\ comment_id_ (cv_comment v) = Sample.oid_b
                    /\ comment_message (cv_comment v) = "hello"%string
                    /\ comment_user_id (cv_comment v) = "u1"%string
                    /\ comment_issue_id (cv_comment v) = Sample.uuid_a.
Proof.
  assert (H : (List.length (Mongo.find (by_comment_issue Sample.uuid_a)
                              (comments Sample.db_one_issue)) < 1000)%nat)
    by (vm_compute; lia).
  split; [exact H|].
  exact (added_comment_is_listed Sample.env_b Sample.uuid_a Scenario.hello "u1"
           Sample.db_one_issue H).
Defined.

(** The listing of a collection whose last document is the strictly newest
    of the issue. *)
Lemma get_comments_newest_last issue_id db c newdoc :
  comments db = c ++ [newdoc] ->
  comment_issue_id (body newdoc) = issue_id ->
  (List.length (Mongo.find (by_comment_issue issue_id) c) < 1000)%nat ->
  (forall d, In d c -> comment_issue_id (body d) = issue_id ->
     comment_created_at (body d) < comment_created_at (body newdoc)) ->
  get_comments issue_id db
  = Return (comment_with_author db newdoc
            :: List.map (comment_with_author db)
                 (Mongo.sort comment_before (Mongo.find (by_comment_issue issue_id) c))).
Proof.
  intros Hc Hid Hlt Hnew. unfold get_comments, Mongo.to_list. rewrite Hc.
  assert (Hfind : Mongo.find (by_comment_issue issue_id) (c ++ [newdoc])
                  = Mongo.find (by_comment_issue issue_id) c ++ [newdoc]).
  { unfold Mongo.find. rewrite filter_app. simpl.
    unfold by_comment_issue at 2. unfold by_key.
    now rewrite Hid, String.eqb_refl. }
  rewrite Hfind, sort_newest_first.
  - change (Z.to_nat 1000) with (S 999). rewrite firstn_cons, map_cons.
    rewrite firstn_all2; [reflexivity|].
    rewrite (Permutation_length (sort_perm comment_before _)). lia.
  - intros x Hx. unfold Mongo.find in Hx. apply filter_In in Hx.
    destruct Hx as [Hin Hq]. apply Hnew; [assumption|].
    unfold by_comment_issue, by_key in Hq. now apply String.eqb_eq in Hq.
Qed.

(** X16.  [add_comment] appends one document.  When the [created_at] stored
    with it is later than that of every comment already stored for the
    issue (fewer than 1000 of them), the first row of the listing afterwards
    is that document (under the text of its [_id], with the message, issue
    id and user id of the request) and the rows after it are the rows of
    the listing before. *)
Theorem newest_comment_listed_first env issue_id comment_data user_id db :
  (List.length (Mongo.find (by_comment_issue issue_id) (comments db)) < 1000)%nat ->
  exists newdoc,
    comments (snd (add_comment env issue_id comment_data user_id db))
    = comments db ++ [newdoc]
    /\ ((forall d, In d (comments db) -> comment_issue_id (body d) = issue_id ->
           comment_created_at (body d) < comment_created_at (body newdoc)) ->
        exists first rest l0,
          get_comments issue_id db = Return l0
          /\ get_comments issue_id
               (snd (add_comment env issue_id comment_data user_id db))
             = Return (first :: rest)
          /\ Permutation rest l0
          /\ cv_comment first = set_comment_id (body newdoc) (_id newdoc)
          /\ comment_id_ (cv_comment first) = new_object_id env 0
          /\ comment_message (cv_comment first) = cc_message comment_data
          /\ comment_user_id (cv_comment first) = user_id
          /\ comment_issue_id (cv_comment first) = issue_id).
Proof.
  intros Hlt. unfold add_comment. cbn [snd comments set_comments].
  eexists. split; [reflexivity|]. intros Hnew.
  do 2 eexists.
  exists (List.map (comment_with_author db)
            (Mongo.sort comment_before
               (Mongo.find (by_comment_issue issue_id) (comments db)))).
  split.
  - unfold get_comments, Mongo.to_list. rewrite firstn_all2; [reflexivity|].
    rewrite (Permutation_length (sort_perm comment_before _)).
    change (Z.to_nat 1000) with 1000%nat. lia.
  - split.
    + apply (get_comments_newest_last issue_id _ (comments db));
        [reflexivity|reflexivity|assumption|exact Hnew].
    + split; [reflexivity|]. repeat split.
Qed.

Example newest_comment_listing :
  get_comments Sample.uuid_a
    (snd (add_comment Sample.env_c Sample.uuid_a (mkCommentCreate "x" "second") "u2"
            Scenario.db_commented))
  = Return [mkCommentView (mkComment Sample.oid_c Sample.uuid_a "u2" "second" 300) None;
            mkCommentView (mkComment Sample.oid_b Sample.uuid_a "u1" "hello" 200) None].
Proof. vm_compute. reflexivity. Qed.

Lemma newest_comment_listed_first_witness :
  (List.length (Mongo.find (by_comment_issue Sample.uuid_a) (comments Scenario.db_commented))
   < 1000)%nat
  /\ exists first rest l0,
       get_comments Sample.uuid_a Scenario.db_commented = Return l0
       /\ get_comments Sample.uuid_a
            (snd (add_comment Sample.env_c Sample.uuid_a (mkCommentCreate "x" "second")
                    "u2" Scenario.db_commented))
          = Return (first :: rest)
       /\ Permutation rest l0
       /\ comment_id_ (cv_comment first) = Sample.oid_c
       /\ comment_message (cv_comment first) = "second"%string.
Proof.
  assert (H : (List.length (Mongo.find (by_comment_issue Sample.uuid_a)
                              (comments Scenario.db_commented)) < 1000)%nat)
    by (vm_compute; lia).
  split; [exact H|].
  destruct (newest_comment_listed_first Sample.env_c Sample.uuid_a
              (mkCommentCreate "x" "second") "u2" Scenario.db_commented H)
    as [newdoc [Happ Hfirst]].
  assert (Hdoc : newdoc = mkDoc Sample.oid_c
                            (mkComment Sample.uuid_c Sample.uuid_a "u2" "second" 300)).
  { unfold add_comment in Happ. cbn [snd comments set_comments] in Happ.
    unfold Mongo.insert_one in Happ. apply app_inj_tail in Happ.
    symmetry. exact (proj2 Happ). }
  destruct Hfirst as [first [rest [l0 [H0 [H1 [Hp [_ [Hid [Hm _]]]]]]]]].
  - intros d Hin _. rewrite Hdoc. vm_compute in Hin. destruct Hin as [<-|[]].
    reflexivity.
  - exists first, rest, l0. repeat split; assumption.
Defined.

(** ** More on listing issues *)

Lemma firstn_firstn_min {A : Type} n m (l : list A) :
  (n <= m)%nat -> List.firstn n (List.firstn m l) = List.firstn n l.
Proof.
  intros H. rewrite firstn_firstn. now rewrite Nat.min_l.
Qed.

(** X17.  Listings with different limits agree on their sort keys: the
    [(vote_count, created_at)] pairs of the listing with the smaller limit
    are the first ones of the listing with the larger limit (same filters,
    same store). *)
Theorem get_issues_limit_prefix lat lng radius category_id n m db :
  limit_accepted n = true -> limit_accepted m = true -> n <= m ->
  exists ln lm,
    get_issues lat lng radius category_id n db = Return ln
    /\ get_issues lat lng radius category_id m db = Return lm
    /\ List.map sort_key ln = List.firstn (Z.to_nat n) (List.map sort_key lm).
Proof.
  intros Hn Hm Hle. rewrite !get_issues_unfold, Hn, Hm.
  do 2 eexists. split; [reflexivity|]. split; [reflexivity|].
  unfold Mongo.to_list. rewrite <- !firstn_map.
  rewrite !firstn_firstn_min by lia. reflexivity.
Qed.

Lemma get_issues_limit_prefix_witness :
  limit_accepted 1 = true /\ limit_accepted 50 = true /\ 1 <= 50
  /\ exists ln lm,
       get_issues None None None None 1 Scenario.db_api = Return ln
       /\ get_issues None None None None 50 Scenario.db_api = Return lm
       /\ List.map sort_key ln = List.firstn (Z.to_nat 1) (List.map sort_key lm).
Proof.
  split; [reflexivity|]. split; [reflexivity|]. split; [lia|].
  apply get_issues_limit_prefix; [reflexivity|reflexivity|lia].
Defined.

(** X18.  When the limit is accepted and not smaller than the number of
    stored issues that pass the conditions, the listing holds each of those
    issues exactly once (as a permutation) and no other. *)
Theorem get_issues_complete lat lng radius category_id limit db :
  limit_accepted limit = true ->
  Z.of_nat (List.length
              (List.filter
                 (fun d => List.forallb (condition_holds d)
                             (match_conditions lat lng category_id))
                 (issues db))) <= limit ->
  exists l,
    get_issues lat lng radius category_id limit db = Return l
    /\ Permutation l
         (List.map (issue_with_context db)
            (List.filter
               (fun d => List.forallb (condition_holds d)
                           (match_conditions lat lng category_id))
               (issues db))).
Proof.
  intros Hlim Hlen. rewrite get_issues_unfold, Hlim. eexists. split; [reflexivity|].
  apply Permutation_map. unfold Mongo.to_list.
  rewrite !firstn_all2.
  - apply sort_perm.
  - rewrite (Permutation_length (sort_perm issue_before _)). lia.
  - rewrite firstn_all2; rewrite (Permutation_length (sort_perm issue_before _)); lia.
Qed.

Lemma get_issues_complete_witness :
  limit_accepted 50 = true
  /\ exists l,
       get_issues None None None (Some "roads"%string) 50 Scenario.db_api = Return l
       /\ Permutation l
            (List.map (issue_with_context Scenario.db_api)
               (List.filter
                  (fun d => List.forallb (condition_holds d)
                              (match_conditions None None (Some "roads"%string)))
                  (issues Scenario.db_api))).
Proof.
  split; [reflexivity|].
  apply get_issues_complete; [reflexivity|vm_compute; discriminate].
Defined.

(** X19.  The location conditions need both coordinates to be given and
    different from zero, and the category condition a non-empty string;
    otherwise the listing is the one without that filter. *)
Theorem get_issues_falsy_filters lat lng radius category_id limit db :
  (float_truthy lat && float_truthy lng = false ->
   get_issues lat lng radius category_id limit db
   = get_issues None None radius category_id limit db)
  /\ (str_truthy category_id = false ->
      get_issues lat lng radius category_id limit db
      = get_issues lat lng radius None limit db).
Proof.
  split; intros H; rewrite !get_issues_unfold; unfold match_conditions.
  - destruct lat as [x|], lng as [y|]; try reflexivity. now rewrite H.
  - destruct category_id as [c|]; [|reflexivity]. now rewrite H.
Qed.

Lemma get_issues_falsy_filters_witness :
  float_truthy (Some 12.5%float) && float_truthy (Some 0%float) = false
  /\ str_truthy (Some EmptyString) = false
  /\ get_issues (Some 12.5%float) (Some 0%float) None (Some EmptyString) 50
       Scenario.db_api
     = get_issues None None None None 50 Scenario.db_api.
Proof.
  split; [reflexivity|]. split; [reflexivity|].
  destruct (get_issues_falsy_filters (Some 12.5%float) (Some 0%float) None
              (Some EmptyString) 50 Scenario.db_api) as [Hloc _].
  destruct (get_issues_falsy_filters None None None (Some EmptyString) 50
              Scenario.db_api) as [_ Hcat].
  rewrite (Hloc eq_refl). exact (Hcat eq_refl).
Defined.

(** ** Voice notes *)

(** X20.  Without a voice attachment ([None] or the empty string) the
    transcription is not attempted: whatever the LLM call would do,
    [create_issue] returns and the issue is stored without a transcript. *)
Theorem create_issue_without_voice env issue_data user_id db :
  str_truthy (ic_voice_base64 issue_data) = false ->
  exists r stored,
    fst (create_issue env issue_data user_id db) = Return r
    /\ payload r = set_issue_id stored (new_object_id env 0)
    /\ issues (snd (create_issue env issue_data user_id db))
       = issues db ++ [mkDoc (new_object_id env 0) stored]
    /\ issue_voice_transcript stored = None
    /\ issue_vote_count stored = 0
    /\ issue_status stored = "pending"%string.
Proof.
  intros H. unfold create_issue.
  destruct (ic_voice_base64 issue_data) as [audio|] eqn:E.
  - rewrite H. cbn [fst snd issues set_issues]. do 2 eexists. repeat split.
  - cbn [fst snd issues set_issues]. do 2 eexists. repeat split.
Qed.

Lemma create_issue_without_voice_witness :
  str_truthy (ic_voice_base64 Sample.pothole) = false
  /\ exists r stored,
       fst (create_issue
              (Sample.env_of Sample.uuid_a Sample.oid_a 100
                 (LlmRaises (PyBaseException "cancelled")))
              Sample.pothole "u1" empty_store) = Return r
       /\ payload r = set_issue_id stored Sample.oid_a
       /\ issues (snd (create_issue
                         (Sample.env_of Sample.uuid_a Sample.oid_a 100
                            (LlmRaises (PyBaseException "cancelled")))
                         Sample.pothole "u1" empty_store))
          = [mkDoc Sample.oid_a stored]
       /\ issue_voice_transcript stored = None
       /\ issue_vote_count stored = 0
       /\ issue_status stored = "pending"%string.
Proof.
  split; [reflexivity|].
  exact (create_issue_without_voice
           (Sample.env_of Sample.uuid_a Sample.oid_a 100
              (LlmRaises (PyBaseException "cancelled")))
           Sample.pothole "u1" empty_store eq_refl).
Defined.

(** X21.  With a voice attachment and an LLM call that answers, the stored
    transcript is the fixed text, whatever the answer was: neither the audio
    nor the LLM's response reaches the stored issue's transcript. *)
Theorem create_issue_transcript_fixed env issue_data user_id db audio response :
  ic_voice_base64 issue_data = Some audio ->
  audio <> EmptyString ->
  send_message env = LlmResponds response ->
  exists r stored,
    fst (create_issue env issue_data user_id db) = Return r
    /\ payload r = set_issue_id stored (new_object_id env 0)
    /\ issues (snd (create_issue env issue_data user_id db))
       = issues db ++ [mkDoc (new_object_id env 0) stored]
    /\ issue_voice_transcript stored
       = Some "Voice note recorded (transcription available in full version)"%string.
Proof.
  intros Hv Hne Hs. unfold create_issue. rewrite Hv.
  assert (Ht : str_truthy (Some audio) = true).
  { simpl. now destruct (String.eqb_spec audio EmptyString). }
  rewrite Ht. unfold transcribe_audio. rewrite Hs.
  cbn [fst snd issues set_issues]. do 2 eexists. repeat split.
Qed.

Lemma create_issue_transcript_fixed_witness :
  ic_voice_base64 Sample.voice_report = Some "UklGRg=="%string
  /\ send_message Sample.env_a = LlmResponds "ok"
  /\ exists r stored,
       fst (create_issue Sample.env_a Sample.voice_report "u1" empty_store) = Return r
       /\ payload r = set_issue_id stored (new_object_id Sample.env_a 0)
       /\ issues (snd (create_issue Sample.env_a Sample.voice_report "u1" empty_store))
          = issues empty_store ++ [mkDoc (new_object_id Sample.env_a 0) stored]
       /\ issue_voice_transcript stored
          = Some "Voice note recorded (transcription available in full version)"%string.
Proof.
  split; [reflexivity|]. split; [reflexivity|].
  apply (create_issue_transcript_fixed Sample.env_a Sample.voice_report "u1"
           empty_store "UklGRg==" "ok" eq_refl); [discriminate|reflexivity].
Defined.

(** ** Fields no request sets *)

Lemma Forall_update_one {A : Type} (P : A -> Prop) q (f : A -> A) (c : Collection A) :
  (forall a, P a -> P (f a)) ->
  Forall (fun d => P (body d)) c ->
  Forall (fun d => P (body d)) (Mongo.update_one q f c).
Proof.
  intros Hf. induction 1 as [|x c Hx Hc IH]; simpl; [constructor|].
  destruct (q x); constructor; try assumption.
  cbn [body]. now apply Hf.
Qed.

Lemma step_roles_status sha env req db :
  Forall (fun d => user_role (body d) = "citizen"%string) (users db)
  /\ Forall (fun d => issue_status (body d) = "pending"%string
                      /\ issue_expected_completion (body d) = None
                      /\ issue_actual_completion (body d) = None) (issues db) ->
  Forall (fun d => user_role (body d) = "citizen"%string) (users (step sha env req db))
  /\ Forall (fun d => issue_status (body d) = "pending"%string
                      /\ issue_expected_completion (body d) = None
                      /\ issue_actual_completion (body d) = None)
       (issues (step sha env req db)).
Proof.
  intros [Hu Hi]. destruct req; simpl; try (now split).
  - unfold register_user.
    destruct (Mongo.find_one (by_email (uc_email user_data)) (users db));
      cbn [snd users issues set_users]; split; try assumption.
    unfold Mongo.insert_one. now apply Forall_snoc.
  - unfold create_issue.
    match goal with |- context [match ?t with Return _ => _ | _ => _ end] =>
      destruct t as [tr|c d|e]; cbn [snd users issues set_issues];
        split; try assumption end.
    unfold Mongo.insert_one. apply Forall_snoc; [assumption|]. repeat split.
  - unfold vote_issue.
    destruct (Mongo.find_one (by_issue_and_user issue_id user_id) (votes db));
      cbn [snd users issues]; split; try assumption;
      apply (Forall_update_one
               (fun i => issue_status i = "pending"%string
                         /\ issue_expected_completion i = None
                         /\ issue_actual_completion i = None));
      auto.
Qed.

(** X22.  After any sequence of requests from the empty store every stored
    user has the role "citizen", and every stored issue has the status
    "pending" and no completion date: no request grants another role or
    moves an issue to another status. *)
Theorem roles_and_status_never_change sha tr :
  Forall (fun db =>
            Forall (fun d => user_role (body d) = "citizen"%string) (users db)
            /\ Forall (fun d => issue_status (body d) = "pending"%string
                                /\ issue_expected_completion (body d) = None
                                /\ issue_actual_completion (body d) = None)
                 (issues db))
    (run sha tr empty_store).
Proof.
  apply run_invariant_any; [intros env req db; apply step_roles_status|].
  split; constructor.
Qed.

(** ** The answer of a listing, and reading a created issue back *)

Lemma within_box_leb x center :
  within_box x center = true -> PrimFloat.is_nan x = false ->
  PrimFloat.leb (center - 0.05)%float x = true
  /\ PrimFloat.leb x (center + 0.05)%float = true.
Proof.
  unfold within_box, Mongo.gte, Mongo.lte. intros H Hx. rewrite Hx in H.
  apply andb_true_iff in H. destruct H as [H1 H2].
  destruct (PrimFloat.is_nan (center - 0.05)%float); [discriminate|].
  destruct (PrimFloat.is_nan (center + 0.05)%float); [discriminate|].
  now split.
Qed.

(** X23.  Whenever [get_issues] returns: it has at most [limit] rows; the rows
    are sorted by [vote_count] descending, ties by [created_at] descending;
    every row is a stored issue under the text of its [_id]; when both
    coordinates are given and not zero, every row whose stored coordinates
    are numbers lies within 0.05 of the point in latitude and in longitude;
    when the category is a non-empty string, every row has that category. *)
Theorem get_issues_answer lat lng radius category_id limit db l :
  get_issues lat lng radius category_id limit db = Return l ->
  Z.of_nat (List.length l) <= limit
  /\ StronglySorted issue_desc (List.map iv_issue l)
  /\ (forall v, In v l ->
        exists d, In d (issues db) /\ iv_issue v = set_issue_id (body d) (_id d))
  /\ (forall x y v,
        lat = Some x -> lng = Some y ->
        float_truthy lat = true -> float_truthy lng = true -> In v l ->
        (PrimFloat.is_nan (issue_location_lat (iv_issue v)) = false ->
         PrimFloat.leb (x - 0.05)%float (issue_location_lat (iv_issue v)) = true
         /\ PrimFloat.leb (issue_location_lat (iv_issue v)) (x + 0.05)%float = true)
        /\ (PrimFloat.is_nan (issue_location_long (iv_issue v)) = false ->
            PrimFloat.leb (y - 0.05)%float (issue_location_long (iv_issue v)) = true
            /\ PrimFloat.leb (issue_location_long (iv_issue v)) (y + 0.05)%float = true))
  /\ (forall c v,
        category_id = Some c -> c <> EmptyString -> In v l ->
        issue_category_id (iv_issue v) = c).
Proof.
  intros Hl.
  split; [exact (get_issues_at_most_limit _ _ _ _ _ _ _ Hl)|].
  split; [exact (get_issues_sorted _ _ _ _ _ _ _ Hl)|].
  split; [|split].
  - intros v Hv. destruct (get_issues_rows _ _ _ _ _ _ _ _ Hl Hv) as [d [Hd [-> _]]].
    exists d. split; [assumption|reflexivity].
  - intros x y v -> -> Hx Hy Hv.
    destruct (get_issues_location_filter _ _ _ _ _ _ _ _ Hx Hy Hl Hv) as [H1 H2].
    split; intros Hnan; now apply within_box_leb.
  - intros c v -> Hc Hv.
    apply (get_issues_category_filter lat lng radius c limit db l v); try assumption.
    simpl. now destruct (String.eqb_spec c EmptyString).
Qed.

Lemma get_issues_answer_witness :
  exists l,
    get_issues (Some 40.7%float) (Some (-74.0)%float) None (Some "roads"%string) 50
      Scenario.db_api = Return l
    /\ List.length l = 1%nat
    /\ Z.of_nat (List.length l) <= 50
    /\ StronglySorted issue_desc (List.map iv_issue l).
Proof.
  eexists. split; [vm_compute; reflexivity|]. split; [reflexivity|].
  destruct (get_issues_answer (Some 40.7%float) (Some (-74.0)%float) None
              (Some "roads"%string) 50 Scenario.db_api _ eq_refl) as [H1 [H2 _]].
  split; [exact H1|exact H2].
Defined.

(** X24.  An issue created with a uuid that no stored issue carries can be
    read back under that uuid (the stored [id], not the one in the payload):
    [get_issue] returns it with [vote_count = 0] and [status = "pending"],
    and the issue in the answer is the one in the payload of [create_issue]
    in every field but the two time stamps; its [id] is the text of the
    inserted [_id]. *)
Theorem created_issue_read_back_by_uuid env issue_data user_id db r :
  ~ In (uuid4 env 0) (ids_of issue_id_ (issues db)) ->
  fst (create_issue env issue_data user_id db) = Return r ->
  exists v,
    get_issue (uuid4 env 0) (snd (create_issue env issue_data user_id db)) = Return v
    /\ issue_vote_count (iv_issue v) = 0
    /\ issue_status (iv_issue v) = "pending"%string
    /\ issue_without_times (iv_issue v) = issue_without_times (payload r)
    /\ issue_id_ (iv_issue v) = new_object_id env 0
    /\ issue_user_id (iv_issue v) = user_id
    /\ issue_title (iv_issue v) = ic_title issue_data
    /\ issue_category_id (iv_issue v) = ic_category_id issue_data.
Proof.
  intros Hfresh Hr.
  destruct (created_issue_found_by_stored_id env issue_data user_id db r Hfresh Hr)
    as [v [Hv [Hc [Hs Hp]]]].
  exists v. split; [assumption|]. split; [assumption|]. split; [assumption|].
  rewrite Hp. split; [reflexivity|].
  unfold create_issue in Hr.
  match type of Hr with context [match ?t with Return _ => _ | _ => _ end] =>
    destruct t as [tr|c d|e]; cbn [fst] in Hr; try discriminate end.
  injection Hr as <-. repeat split.
Qed.

Lemma created_issue_read_back_by_uuid_witness :
  ~ In (uuid4 Sample.env_a 0) (ids_of issue_id_ (issues empty_store))
  /\ exists r v,
       fst (create_issue Sample.env_a Sample.pothole "u1" empty_store) = Return r
       /\ get_issue Sample.uuid_a Sample.db_one_issue = Return v
       /\ issue_vote_count (iv_issue v) = 0
       /\ issue_status (iv_issue v) = "pending"%string
       /\ issue_without_times (iv_issue v) = issue_without_times (payload r)
       /\ issue_id_ (iv_issue v) = Sample.oid_a
       /\ issue_user_id (iv_issue v) = "u1"%string
       /\ issue_title (iv_issue v) = "Pothole on Main Street"%string
       /\ issue_category_id (iv_issue v) = "roads"%string.
Proof.
  assert (H : ~ In (uuid4 Sample.env_a 0) (ids_of issue_id_ (issues empty_store)))
    by (intros []).
  split; [exact H|].
  eexists.
  destruct (created_issue_read_back_by_uuid Sample.env_a Sample.pothole "u1"
              empty_store _ H eq_refl) as [v Hv].
  exists v. split; [reflexivity|]. exact Hv.
Defined.
